(** * Email header anonymizer (src/main.py): model and verified properties

    The development embeds [anonymize_email_headers] and [main] of
    src/main.py.  Python text is modelled as a list of characters; a character
    is a code point in U+0000..U+00FF (Rocq's [ascii]), on which [str.lower],
    [str.splitlines] and the regular expression classes are modelled exactly.
    Code points above U+00FF are outside the model. *)

From Stdlib Require Import List Ascii String NArith Bool Arith Lia.
From stdpp Require Import base option list gmap strings.

Open Scope list_scope.
Open Scope bool_scope.

(** ** Text *)

Abbreviation text := (list ascii).

(** A Python string literal. *)
Definition str (s : string) : text := list_ascii_of_string s.

Definition code (c : ascii) : N := N_of_ascii c.

(** [lo <= c <= hi] on code points, as in a character range [lo-hi]. *)
Definition in_range (lo hi c : ascii) : bool :=
  (code lo <=? code c)%N && (code c <=? code hi)%N.

Definition LF : ascii := ascii_of_N 10.
Definition CR : ascii := ascii_of_N 13.

(** *** [str.lower] *)

(** Upper-case letters of U+0000..U+00FF: A-Z and U+00C0..U+00DE except the
    multiplication sign U+00D7; each lower-cases to the code point 32 above. *)
Definition is_upper (c : ascii) : bool :=
  in_range "A" "Z" c
  || (in_range (ascii_of_N 192) (ascii_of_N 222) c && negb (code c =? 215)%N).

Definition lower_char (c : ascii) : ascii :=
  if is_upper c then ascii_of_N (code c + 32) else c.

Definition lower (s : text) : text := map lower_char s.

(** *** [str.startswith] *)

Fixpoint startswith (prefix s : text) : bool :=
  match prefix, s with
  | [], _ => true
  | p :: prefix', c :: s' => Ascii.eqb p c && startswith prefix' s'
  | _ :: _, [] => false
  end.

(** *** [sub in s] and [s.split(sep, 1)] *)

Fixpoint contains (sub s : text) : bool :=
  startswith sub s
  || match s with
     | [] => false
     | _ :: s' => contains sub s'
     end.

(** [s.split(sep, 1)]: the text before the first occurrence of [sep] and the
    text after it, or [s] alone when [sep] does not occur. *)
Fixpoint split1 (sep s : text) : list text :=
  if startswith sep s then [[]; drop (length sep) s]
  else match s with
       | [] => [[]]
       | c :: s' =>
           match split1 sep s' with
           | before :: after => (c :: before) :: after
           | [] => [[c]]
           end
       end.

(** *** [str.splitlines] *)

(** The line boundaries of [str.splitlines] below U+0100: LF, VT, FF, CR,
    FS, GS, RS and NEL; CR LF counts as one boundary. *)
Definition is_linebreak (c : ascii) : bool :=
  in_range (ascii_of_N 10) (ascii_of_N 13) c
  || in_range (ascii_of_N 28) (ascii_of_N 30) c
  || (code c =? 133)%N.

(** [line] is the text of the current line read so far.  A line is emitted at
    each boundary; text after the last boundary is a final line; a boundary at
    the very end opens no further line. *)
Fixpoint splitlines_from (line s : text) : list text :=
  match s with
  | [] => match line with [] => [] | _ => [line] end
  | c :: s' =>
      if is_linebreak c then
        line :: (if Ascii.eqb c CR then
                   match s' with
                   | c' :: s'' =>
                       if Ascii.eqb c' LF then splitlines_from [] s''
                       else splitlines_from [] s'
                   | [] => splitlines_from [] s'
                   end
                 else splitlines_from [] s')
      else splitlines_from (line ++ [c]) s'
  end.

Definition splitlines (s : text) : list text := splitlines_from [] s.

(** *** [sep.join(lines)] *)

Fixpoint join (sep : text) (lines : list text) : text :=
  match lines with
  | [] => []
  | [l] => l
  | l :: ls => l ++ sep ++ join sep ls
  end.

(** ** Regular expressions ([re]) *)

(** The constructs the two patterns of the source use.  A set is a list of
    ranges, a single character [c] being the range [(c, c)]. *)
Inductive regex : Type :=
| Lit (c : ascii)                      (* a literal or escaped character *)
| CharSet (items : list (ascii * ascii))  (* [...] *)
| Seq (r1 r2 : regex)                  (* r1 r2 *)
| Alt (r1 r2 : regex)                  (* r1|r2, r1 tried first *)
| Opt (r : regex)                      (* r?, greedy *)
| Times (n : nat) (r : regex)          (* r{n} *)
| SetPlus (items : list (ascii * ascii))  (* [...]+, greedy *)
| WordB                                (* \b *)
| Group (r : regex).                   (* (...) and (?:...) *)

Definition in_set (items : list (ascii * ascii)) (c : ascii) : bool :=
  existsb (fun '(lo, hi) => in_range lo hi c) items.

(** [\w] of a [str] pattern below U+0100: the alphanumeric code points
    ([str.isalnum]) and the underscore. *)
Definition is_word (c : ascii) : bool :=
  in_range "0" "9" c || in_range "A" "Z" c || in_range "a" "z" c
  || Ascii.eqb c "_"
  || (code c =? 170)%N || (code c =? 178)%N || (code c =? 179)%N
  || (code c =? 181)%N || (code c =? 185)%N || (code c =? 186)%N
  || in_range (ascii_of_N 188) (ascii_of_N 190) c
  || in_range (ascii_of_N 192) (ascii_of_N 214) c
  || in_range (ascii_of_N 216) (ascii_of_N 246) c
  || in_range (ascii_of_N 248) (ascii_of_N 255) c.

(** Outside the text (before its first and after its last character) there is
    no word character. *)
Definition is_word_at (c : option ascii) : bool :=
  match c with Some x => is_word x | None => false end.

(** The position of the matcher: the character before it and the text from it
    on. *)
Definition cont : Type := option ascii -> text -> option (option ascii * text).

(** Greedy [[...]+]: as many characters of the set as there are, giving one
    back at a time while the rest of the pattern fails. *)
Fixpoint set_plus (cls : ascii -> bool) (s : text) (k : cont)
  : option (option ascii * text) :=
  match s with
  | c :: s' =>
      if cls c then
        match set_plus cls s' k with
        | Some r => Some r
        | None => k (Some c) s'
        end
      else None
  | [] => None
  end.

(** The backtracking matcher: [backtrack r prev s k] matches [r] at the start
    of [s] ([prev] is the character before it) and passes the position after
    the match to [k]; alternatives are tried in the order of the pattern. *)
Fixpoint backtrack (r : regex) (prev : option ascii) (s : text) (k : cont)
  : option (option ascii * text) :=
  match r with
  | Lit c =>
      match s with
      | x :: s' => if Ascii.eqb x c then k (Some x) s' else None
      | [] => None
      end
  | CharSet items =>
      match s with
      | x :: s' => if in_set items x then k (Some x) s' else None
      | [] => None
      end
  | Seq r1 r2 => backtrack r1 prev s (fun p t => backtrack r2 p t k)
  | Alt r1 r2 =>
      match backtrack r1 prev s k with
      | Some res => Some res
      | None => backtrack r2 prev s k
      end
  | Opt r1 =>
      match backtrack r1 prev s k with
      | Some res => Some res
      | None => k prev s
      end
  | Times n r1 =>
      (fix rep (n : nat) (p : option ascii) (t : text) :=
         match n with
         | 0 => k p t
         | S n' => backtrack r1 p t (rep n')
         end) n prev s
  | SetPlus items => set_plus (in_set items) s k
  | WordB =>
      if xorb (is_word_at prev) (is_word_at (head s)) then k prev s else None
  | Group r1 => backtrack r1 prev s k
  end.

(** A match starting exactly here: the position after it. *)
Definition match_here (r : regex) (prev : option ascii) (s : text)
  : option (option ascii * text) :=
  backtrack r prev s (fun p t => Some (p, t)).

(** The pieces of a scanned text: a character no match covers, or a match. *)
Inductive piece : Type :=
| Keep (c : ascii)
| Hit (m : text).

(** Leftmost non-overlapping matches, scanning left to right.  A match that
    consumes nothing is treated as no match at that position (neither pattern
    of the source has one, see [ip_match_consumes], [host_match_consumes]). *)
Fixpoint scan (fuel : nat) (r : regex) (prev : option ascii) (s : text)
  : list piece :=
  match fuel with
  | 0 => map Keep s
  | S fuel' =>
      match s with
      | [] => []
      | c :: s' =>
          match match_here r prev s with
          | Some (prev', rest) =>
              if length rest <? length s
              then Hit (take (length s - length rest) s)
                     :: scan fuel' r prev' rest
              else Keep c :: scan fuel' r (Some c) s'
          | None => Keep c :: scan fuel' r (Some c) s'
          end
      end
  end.

Definition finditer (r : regex) (s : text) : list piece :=
  scan (length s) r None s.

Definition render (repl : text) (p : piece) : text :=
  match p with
  | Keep c => [c]
  | Hit _ => repl
  end.

(** [re.sub(pattern, repl, s)] for a replacement without backslash escapes
    and group references, which is then inserted as it is. *)
Definition re_sub (r : regex) (repl s : text) : text :=
  flat_map (render repl) (finditer r s).

(** *** The patterns of the source *)

Definition digit : list (ascii * ascii) := [("0", "9")]%char.

(** [25[0-5]|2[0-4][0-9]|[01]?[0-9][0-9]?] *)
Definition octet_pattern : regex :=
  Alt (Seq (Lit "2") (Seq (Lit "5") (CharSet [("0", "5")]%char)))
      (Alt (Seq (Lit "2") (Seq (CharSet [("0", "4")]%char) (CharSet digit)))
           (Seq (Opt (CharSet [("0", "0"); ("1", "1")]%char))
                (Seq (CharSet digit) (Opt (CharSet digit))))).

(** [\b(?:(?:25[0-5]|2[0-4][0-9]|[01]?[0-9][0-9]?)\.){3}(?:25[0-5]|2[0-4][0-9]|[01]?[0-9][0-9]?)\b] *)
Definition ip_address_pattern : regex :=
  Seq WordB
      (Seq (Times 3 (Group (Seq (Group octet_pattern) (Lit "."))))
           (Seq (Group octet_pattern) WordB)).

Definition host_chars : list (ascii * ascii) :=
  [("a", "z"); ("A", "Z"); ("0", "9"); (".", "."); ("-", "-")]%char.

(** [\[?([a-zA-Z0-9.-]+)\]?] *)
Definition hostname_pattern : regex :=
  Seq (Opt (Lit "["))
      (Seq (Group (SetPlus host_chars)) (Opt (Lit "]"))).

(** ** The synthetic value provider ([faker.Faker]) *)

(** [fake = Faker()] is a stateful generator: each call returns a value and
    advances the generator.  [G] is the type of its states. *)
Class Faker (G : Type) : Type := {
  fake_name : G -> text * G;
  fake_email : G -> text * G;
  fake_domain_name : G -> text * G;
  fake_ipv4 : G -> text * G;
  fake_uuid4 : G -> text * G;
  fake_date_time : G -> text * G
}.

(** The calls a provider can receive, and a provider that records them. *)
Inductive call : Type :=
| CallName | CallEmail | CallDomainName | CallIpv4 | CallUuid4 | CallDateTime.

Definition recorded {G : Type} (c : call) (f : G -> text * G)
  (st : G * list call) : text * (G * list call) :=
  let '(v, g) := f (fst st) in (v, (g, snd st ++ [c])).

#[export] Instance traced (G : Type) `{Faker G} : Faker (G * list call) := {
  fake_name := recorded CallName fake_name;
  fake_email := recorded CallEmail fake_email;
  fake_domain_name := recorded CallDomainName fake_domain_name;
  fake_ipv4 := recorded CallIpv4 fake_ipv4;
  fake_uuid4 := recorded CallUuid4 fake_uuid4;
  fake_date_time := recorded CallDateTime fake_date_time
}.

(** A deterministic provider for examples: the state counts the calls made
    and the IPv4 address depends on it. *)
Definition numbered (prefix : string) (n : nat) : text * nat :=
  (str prefix ++ [ascii_of_nat (48 + n mod 10)], S n).

Definition constant (v : string) (n : nat) : text * nat := (str v, S n).

#[export] Instance demo_faker : Faker nat := {
  fake_name := constant "Jane Doe";
  fake_email := constant "jane@example.org";
  fake_domain_name := constant "example.org";
  fake_ipv4 := numbered "203.0.113.";
  fake_uuid4 := constant "123e4567-e89b-42d3-a456-426614174000";
  fake_date_time := constant "2001-02-03 04:05:06"
}.

(** ** The header loop of [anonymize_email_headers] *)

Section Rewriter.
Context {G : Type} `{Faker G}.
Variables keep_x_mailer obfuscate_received : bool.

(** Lines 66-67: one synthetic address for the whole line. *)
Definition ipv4_pass (header : text) (fake : G) : text * G :=
  let '(ip, fake) := fake_ipv4 fake in
  (re_sub ip_address_pattern ip header, fake).

(** Lines 68-69: one synthetic domain name for the whole line. *)
Definition hostname_pass (header : text) (fake : G) : text * G :=
  let '(domain, fake) := fake_domain_name fake in
  (re_sub hostname_pattern domain header, fake).

Definition obfuscate (header : text) (fake : G) : text * G :=
  let '(header, fake) := ipv4_pass header fake in
  hostname_pass header fake.

(** The body of the loop, lines 63-97: the line appended to
    [anonymized_headers], if any, and the provider after it. *)
Definition rewrite_header (header : text) (fake : G) : option text * G :=
  if startswith (str "received:") (lower header) then
    if obfuscate_received then
      let '(header, fake) := obfuscate header fake in
      (Some header, fake)
    else (None, fake)
  else if startswith (str "x-mailer:") (lower header) then
    if keep_x_mailer then (Some header, fake) else (None, fake)
  else if startswith (str "message-id:") (lower header) then
    let '(uuid, fake) := fake_uuid4 fake in
    let '(domain, fake) := fake_domain_name fake in
    (Some (str "Message-ID: <" ++ uuid ++ str "@" ++ domain ++ str ">"), fake)
  else if startswith (str "date:") (lower header) then
    let '(date, fake) := fake_date_time fake in
    (Some (str "Date: " ++ date), fake)
  else if startswith (str "from:") (lower header) then
    let '(name, fake) := fake_name fake in
    let '(email, fake) := fake_email fake in
    (Some (str "From: " ++ name ++ str " <" ++ email ++ str ">"), fake)
  else if startswith (str "to:") (lower header) then
    let '(name, fake) := fake_name fake in
    let '(email, fake) := fake_email fake in
    (Some (str "To: " ++ name ++ str " <" ++ email ++ str ">"), fake)
  else if startswith (str "reply-to:") (lower header) then
    let '(name, fake) := fake_name fake in
    let '(email, fake) := fake_email fake in
    (Some (str "Reply-To: " ++ name ++ str " <" ++ email ++ str ">"), fake)
  else (Some header, fake).

(** The loop over [headers], lines 62-97: [anonymized_headers] and the
    provider after the last header. *)
Fixpoint rewrite_headers (headers : list text) (fake : G) : list text * G :=
  match headers with
  | [] => ([], fake)
  | header :: rest =>
      let '(out, fake) := rewrite_header header fake in
      let '(outs, fake) := rewrite_headers rest fake in
      (match out with Some line => line :: outs | None => outs end, fake)
  end.

(** Lines 49-54: the separator between headers and body, if there is one. *)
Definition find_header_end_marker (email_content : text) : option text :=
  let header_end_marker := [LF; LF] in
  if negb (contains header_end_marker email_content) then
    let header_end_marker := [CR; LF; CR; LF] in
    if negb (contains header_end_marker email_content) then None
    else Some header_end_marker
  else Some header_end_marker.

(** Line 57. *)
Definition headers_of (header_part : text) : list text :=
  splitlines header_part.

(** Lines 56-100 for a separator that was found: [anonymized_email], or
    [None] when the unpacking of line 56 raises. *)
Definition anonymize_content (header_end_marker email_content : text)
  (fake : G) : option text :=
  match split1 header_end_marker email_content with
  | [header_part; body_part] =>
      let headers := headers_of header_part in
      let '(anonymized_headers, _) := rewrite_headers headers fake in
      Some (join [LF] anonymized_headers ++ header_end_marker ++ body_part)
  | _ => None
  end.
End Rewriter.

(** ** Files, logging and the command line *)

Abbreviation bytes := (list Byte.byte).

(** The decoder and encoder behind [chardet.detect] and the text mode of
    [open]: [detect] is the [encoding] entry of the detection result;
    [decode] and [encode] are [None] where Python raises.  What text mode
    does to line ends when it reads and writes is part of them; the
    functions of the header loop are defined on every text. *)
Class Codec : Type := {
  detect : bytes -> option string;
  decode : string -> bytes -> option text;
  encode : string -> text -> option bytes
}.

(** What reading in text mode does to line ends ([open(input_file, 'r')],
    line 45): a carriage return followed by a line feed, and a carriage
    return alone, each become one line feed. *)
Fixpoint universal_newlines (s : text) : text :=
  match s with
  | [] => []
  | c :: s' =>
      if Ascii.eqb c CR then
        LF :: match s' with
              | c' :: s'' =>
                  if Ascii.eqb c' LF then universal_newlines s''
                  else universal_newlines s'
              | [] => []
              end
      else c :: universal_newlines s'
  end.

(** Latin-1, for examples: every byte is the code point of the same value,
    and line ends are read as text mode reads them; a line feed is written
    as it is. *)
#[export] Instance latin1 : Codec := {
  detect := fun _ => Some "ISO-8859-1"%string;
  decode := fun _ raw => Some (universal_newlines (map ascii_of_byte raw));
  encode := fun _ s => Some (map byte_of_ascii s)
}.

Inductive level : Type := DEBUG | INFO | WARNING | ERROR | CRITICAL.

Definition severity (l : level) : nat :=
  match l with
  | DEBUG => 10 | INFO => 20 | WARNING => 30 | ERROR => 40 | CRITICAL => 50
  end.

(** The calls of [logging.error] and [logging.info]; the two [logging.debug]
    calls of the loop are not recorded. *)
Inductive log_record : Type :=
| NoSeparator                      (* line 53 *)
| Saved (output_file : string)     (* line 106 *)
| InputNotFound (input_file : string)   (* line 109 *)
| ErrorOccurred                    (* line 111 *)
| InputMissing (input_file : string).   (* line 125 *)

Definition level_of (r : log_record) : level :=
  match r with
  | Saved _ => INFO
  | _ => ERROR
  end.

(** The files by path, the records passed to [logging] so far, and the level
    of the root logger. *)
Record World : Type := {
  files : gmap string bytes;
  logged : list log_record;
  threshold : level
}.

Definition log (r : log_record) (w : World) : World :=
  {| files := files w; logged := logged w ++ [r]; threshold := threshold w |}.

Definition write_file (path : string) (data : bytes) (w : World) : World :=
  {| files := <[path := data]> (files w);
     logged := logged w; threshold := threshold w |}.

(** The records the root logger lets through. *)
Definition reported (w : World) : list log_record :=
  filter (fun r => severity (threshold w) <= severity (level_of r)) (logged w).

Inductive exn : Type := FileNotFoundError | OtherException.

Section Program.
Context {G : Type} `{Faker G} `{Codec}.

(** The [try] block of [anonymize_email_headers], lines 35-106: the world
    it leaves and the exception that ended it, if any.  [fake] is the
    state of the provider that line 60 creates. *)
Definition try_block (input_file output_file : string)
  (keep_x_mailer obfuscate_received : bool) (fake : G) (w : World)
  : World * option exn :=
  match files w !! input_file with
  | None => (w, Some FileNotFoundError)
  | Some raw_data =>
      let encoding := default "utf-8"%string (detect raw_data) in
      match decode encoding raw_data with
      | None => (w, Some OtherException)
      | Some email_content =>
          match find_header_end_marker email_content with
          | None => (log NoSeparator w, None)
          | Some header_end_marker =>
              match anonymize_content keep_x_mailer obfuscate_received
                      header_end_marker email_content fake with
              | None => (w, Some OtherException)
              | Some anonymized_email =>
                  (* open(output_file, 'w') truncates before the text is
                     encoded *)
                  let w := write_file output_file [] w in
                  match encode encoding anonymized_email with
                  | None => (w, Some OtherException)
                  | Some data =>
                      (log (Saved output_file)
                           (write_file output_file data w), None)
                  end
              end
          end
      end
  end.

(** Lines 24-111. *)
Definition anonymize_email_headers (input_file output_file : string)
  (keep_x_mailer obfuscate_received : bool) (fake : G) (w : World) : World :=
  match try_block input_file output_file keep_x_mailer obfuscate_received
          fake w with
  | (w, None) => w
  | (w, Some FileNotFoundError) => log (InputNotFound input_file) w
  | (w, Some OtherException) => log ErrorOccurred w
  end.

(** The parsed command line. *)
Record Args : Type := {
  input_file : string;
  output_file : string;
  keep_x_mailer : bool;
  obfuscate_received : bool;
  log_level : level
}.

(** Lines 113-128: the exit status of the process and the world it
    leaves.  Only [sys.exit(1)] gives a status other than 0. *)
Definition main (args : Args) (fake : G) (w : World) : nat * World :=
  let w := {| files := files w; logged := logged w;
              threshold := log_level args |} in
  if negb (bool_decide (is_Some (files w !! input_file args))) then
    (1, log (InputMissing (input_file args)) w)
  else
    (0, anonymize_email_headers (input_file args) (output_file args)
          (keep_x_mailer args) (obfuscate_received args) fake w).
End Program.

(** ** Specification vocabulary *)

(** *** What a pattern matches, stated without the matcher *)

(** [Matches r prev s prev' rest]: [r] matches a prefix of [s] that leaves
    [rest], where [prev] is the character before [s] and [prev'] the one
    before [rest]. *)
Inductive Matches : regex -> option ascii -> text -> option ascii -> text -> Prop :=
| M_lit c p t : Matches (Lit c) p (c :: t) (Some c) t
| M_set items x p t :
    in_set items x = true -> Matches (CharSet items) p (x :: t) (Some x) t
| M_seq r1 r2 p s p1 s1 p2 s2 :
    Matches r1 p s p1 s1 -> Matches r2 p1 s1 p2 s2 ->
    Matches (Seq r1 r2) p s p2 s2
| M_alt_l r1 r2 p s p' s' : Matches r1 p s p' s' -> Matches (Alt r1 r2) p s p' s'
| M_alt_r r1 r2 p s p' s' : Matches r2 p s p' s' -> Matches (Alt r1 r2) p s p' s'
| M_opt_some r p s p' s' : Matches r p s p' s' -> Matches (Opt r) p s p' s'
| M_opt_none r p s : Matches (Opt r) p s p s
| M_times_0 r p s : Matches (Times 0 r) p s p s
| M_times_S n r p s p1 s1 p2 s2 :
    Matches r p s p1 s1 -> Matches (Times n r) p1 s1 p2 s2 ->
    Matches (Times (S n) r) p s p2 s2
| M_plus_1 items x p t :
    in_set items x = true -> Matches (SetPlus items) p (x :: t) (Some x) t
| M_plus_S items x p t p' t' :
    in_set items x = true -> Matches (SetPlus items) (Some x) t p' t' ->
    Matches (SetPlus items) p (x :: t) p' t'
| M_wordb p s :
    xorb (is_word_at p) (is_word_at (head s)) = true -> Matches WordB p s p s
| M_group r p s p' s' : Matches r p s p' s' -> Matches (Group r) p s p' s'.

(** The text a piece stands for in the scanned line. *)
Definition original (p : piece) : text :=
  match p with
  | Keep c => [c]
  | Hit m => m
  end.

(** The character before the position that follows [m], when [prev] is the
    one before [m]. *)
Definition last_of (prev : option ascii) (m : text) : option ascii :=
  match last m with
  | Some c => Some c
  | None => prev
  end.

(** [Scanned r prev s pieces]: [pieces] cuts [s] into the matches a
    left-to-right scan finds and the characters at which nothing matches. *)
Inductive Scanned (r : regex) : option ascii -> text -> list piece -> Prop :=
| Sc_end prev : Scanned r prev [] []
| Sc_keep prev c s ps :
    (forall p' rest, match_here r prev (c :: s) = Some (p', rest) ->
                     length rest = S (length s)) ->
    Scanned r (Some c) s ps ->
    Scanned r prev (c :: s) (Keep c :: ps)
| Sc_hit prev m rest ps :
    m <> [] ->
    match_here r prev (m ++ rest) = Some (last_of prev m, rest) ->
    Scanned r (last_of prev m) rest ps ->
    Scanned r prev (m ++ rest) (Hit m :: ps).

(** *** The strict IPv4 grammar *)

Definition is_digit (c : ascii) : bool := in_range "0" "9" c.

(** The number a text of decimal digits denotes. *)
Definition decimal (ds : text) : N :=
  fold_left (fun n c => (10 * n + (code c - 48))%N) ds 0%N.

(** One to three decimal digits denoting at most 255. *)
Definition is_octet (ds : text) : bool :=
  (1 <=? length ds) && (length ds <=? 3)
  && forallb is_digit ds && (decimal ds <=? 255)%N.

(** Four octets separated by dots. *)
Definition ipv4_literal (m : text) : Prop :=
  exists a b c d,
    m = a ++ str "." ++ b ++ str "." ++ c ++ str "." ++ d
    /\ is_octet a = true /\ is_octet b = true
    /\ is_octet c = true /\ is_octet d = true.

(** No word character touches the occurrence on either side. *)
Definition word_bounded (before after : text) : Prop :=
  is_word_at (last before) = false /\ is_word_at (head after) = false.

(** *** Hostname-like tokens *)

Definition is_host_char (c : ascii) : bool := in_set host_chars c.

(** A non-empty run of letters, digits, dots and hyphens, with an optional
    opening and an optional closing bracket around it. *)
Definition host_token (m : text) : Prop :=
  exists opening run closing,
    m = opening ++ run ++ closing
    /\ run <> [] /\ forallb is_host_char run = true
    /\ (opening = [] \/ opening = str "[")
    /\ (closing = [] \/ closing = str "]").

(** *** Field names *)

Definition colon : ascii := ":"%char.

(** The text before the first colon; a line without a colon has no field
    name. *)
Fixpoint field_name (header : text) : option text :=
  match header with
  | [] => None
  | c :: rest =>
      if Ascii.eqb c colon then Some []
      else option_map (cons c) (field_name rest)
  end.

Definition colon_free (k : text) : bool :=
  forallb (fun c => negb (Ascii.eqb c colon)) k.

Definition text_eqb (a b : text) : bool :=
  bool_decide (a = b).

Definition known_names : list text :=
  [str "Received"; str "X-Mailer"; str "Message-ID"; str "Date";
   str "From"; str "To"; str "Reply-To"].

(** The field name of the line is in the table, letter case apart. *)
Definition known_header (header : text) : bool :=
  match field_name header with
  | Some name => existsb (fun k => text_eqb (lower name) (lower k)) known_names
  | None => false
  end.

(** A physical line that begins with a space or a tab. *)
Definition is_continuation (line : text) : bool :=
  match line with
  | c :: _ => Ascii.eqb c " " || Ascii.eqb c (ascii_of_N 9)
  | [] => false
  end.

Definition no_linebreak (line : text) : bool :=
  forallb (fun c => negb (is_linebreak c)) line.

(** Only bare line feeds end the lines of [s]. *)
Definition lf_only (s : text) : bool :=
  forallb (fun c => negb (is_linebreak c) || Ascii.eqb c LF) s.

(** *** The claims as the specification words them *)

(** An IPv4 pass in which every match draws a value of its own from the
    provider, left to right. *)
Fixpoint render_fresh {G : Type} `{Faker G} (pieces : list piece) (fake : G)
  : text * G :=
  match pieces with
  | [] => ([], fake)
  | Keep c :: rest =>
      let '(out, fake) := render_fresh rest fake in (c :: out, fake)
  | Hit _ :: rest =>
      let '(ip, fake) := fake_ipv4 fake in
      let '(out, fake) := render_fresh rest fake in (ip ++ out, fake)
  end.

Definition ipv4_pass_per_match {G : Type} `{Faker G} (header : text) (fake : G)
  : text * G :=
  render_fresh (finditer ip_address_pattern header) fake.

(** The separator choice that tries the carriage-return variant first. *)
Definition find_header_end_marker_crlf_first (email_content : text)
  : option text :=
  if contains [CR; LF; CR; LF] email_content then Some [CR; LF; CR; LF]
  else if contains [LF; LF] email_content then Some [LF; LF]
  else None.

(** The number of lines that begin with [Received:]. *)
Definition count_received (lines : list text) : nat :=
  length (filter (fun l => startswith (str "Received:") l = true) lines).

(** The number of Received headers among the lines read. *)
Definition count_received_headers (headers : list text) : nat :=
  length (filter (fun l => startswith (str "received:") (lower l) = true)
            headers).

(** The shape [<FieldName>: <text> <<text with an at sign>>]. *)
Definition address_shape (name line : text) : Prop :=
  exists display address,
    line = name ++ str ": " ++ display ++ str " <" ++ address ++ str ">"
    /\ In "@"%char address.

Definition address_names : list text := [str "From"; str "To"; str "Reply-To"].

(** *** A run of the program, for examples *)

Definition demo_args : Args := {|
  input_file := "mail.eml";
  output_file := "anonymous.eml";
  keep_x_mailer := false;
  obfuscate_received := false;
  log_level := INFO
|}.

(** One file, [mail.eml], with the given text in Latin-1. *)
Definition demo_world (content : text) : World := {|
  files := {[ "mail.eml"%string := map byte_of_ascii content ]};
  logged := [];
  threshold := WARNING
|}.

(** The text the pieces stand for. *)
Definition originals (pieces : list piece) : text := flat_map original pieces.

(** The character at offset [n] of the scanned text lies in a match. *)
Definition covered (pieces : list piece) (n : nat) : Prop :=
  exists before m after,
    pieces = before ++ Hit m :: after
    /\ length (originals before) <= n < length (originals before) + length m.

(** The number of physical lines that do not begin with a space or a tab. *)
Definition count_non_continuation (lines : list text) : nat :=
  length (filter (fun l => is_continuation l = false) lines).

(** The Received line of the specification's example. *)
Definition example_received : text :=
  str "Received: from mail.example.com (192.168.1.10) by relay.test (10.0.0.5)".

(** *** Classes of header lines *)

(** The field name of the line is [k], letter case apart. *)
Definition has_field (k header : text) : bool :=
  match field_name header with
  | Some name => text_eqb (lower name) (lower k)
  | None => false
  end.

(** The lines the loop leaves out. *)
Definition dropped (keep_x_mailer obfuscate_received : bool) (header : text)
  : bool :=
  (has_field (str "Received") header && negb obfuscate_received)
  || (has_field (str "X-Mailer") header && negb keep_x_mailer).

(** The calls to the provider a line stands for. *)
Definition calls_for (obfuscate_received : bool) (header : text) : list call :=
  if has_field (str "Received") header then
    if obfuscate_received then [CallIpv4; CallDomainName] else []
  else if has_field (str "X-Mailer") header then []
  else if has_field (str "Message-ID") header then [CallUuid4; CallDomainName]
  else if has_field (str "Date") header then [CallDateTime]
  else if has_field (str "From") header || has_field (str "To") header
          || has_field (str "Reply-To") header then [CallName; CallEmail]
  else [].

Definition replaced_names : list text :=
  [str "Message-ID"; str "Date"; str "From"; str "To"; str "Reply-To"].

(** *** The hostname substitution as one pass over the line *)

(** Inside a run of hostname characters that was replaced, or not. *)
Inductive run_state : Type := Outside | InRun.

Definition in_run (st : run_state) : bool :=
  match st with InRun => true | Outside => false end.

(** The text begins with a hostname character. *)
Definition starts_run (s : text) : bool :=
  match s with
  | c :: _ => is_host_char c
  | [] => false
  end.

(** One pass from left to right: the first character of a run of letters,
    digits, dots and hyphens gives the domain name and the others give
    nothing; a closing bracket directly after a run and an opening bracket
    directly before one give nothing; every other character is kept. *)
Fixpoint host_machine (domain : text) (st : run_state) (s : text) : text :=
  match s with
  | [] => []
  | c :: s' =>
      if is_host_char c then
        if in_run st then host_machine domain InRun s'
        else domain ++ host_machine domain InRun s'
      else if in_run st && Ascii.eqb c "]" then host_machine domain Outside s'
      else if Ascii.eqb c "[" && starts_run s' then
        host_machine domain Outside s'
      else c :: host_machine domain Outside s'
  end.

(** The text without the closing bracket it begins with, if any. *)
Definition strip_close (s : text) : text :=
  match s with
  | c :: s' => if Ascii.eqb c "]" then s' else s
  | [] => []
  end.

(** Every match among the pieces is a non-empty text of hostname
    characters. *)
Definition host_hits (pieces : list piece) : Prop :=
  Forall (fun p => match p with
                   | Hit m => m <> [] /\ forallb is_host_char m = true
                   | Keep _ => True
                   end) pieces.

(** *** Further fixtures for examples *)

(** Seven-bit ASCII: bytes and characters from 128 on are refused. *)
Definition ascii_codec : Codec := {|
  detect := fun _ => Some "ascii"%string;
  decode := fun _ raw =>
    if forallb (fun b => (Byte.to_N b <? 128)%N) raw
    then Some (universal_newlines (map ascii_of_byte raw)) else None;
  encode := fun _ s =>
    if forallb (fun c => (code c <? 128)%N) s
    then Some (map byte_of_ascii s) else None
|}.

(** A provider whose names are not ASCII; it has no state. *)
#[export] Instance accented_faker : Faker unit := {
  fake_name := fun u => (str "Zo" ++ [ascii_of_N 235], u);
  fake_email := fun u => (str "zoe@example.org", u);
  fake_domain_name := fun u => (str "example.org", u);
  fake_ipv4 := fun u => (str "203.0.113.9", u);
  fake_uuid4 := fun u => (str "123e4567-e89b-42d3-a456-426614174000", u);
  fake_date_time := fun u => (str "2001-02-03 04:05:06", u)
}.

(** A message of two header lines and a body. *)
Definition demo_message : text :=
  str "Subject: hi" ++ [LF] ++ str "From: a@b.example" ++ [LF; LF]
  ++ str "body".

(** *** A substitution, stated without the function that performs it *)

(** [Substituted v pieces out]: [out] is the scanned text with the one text
    [v] in the place of every match, and every other character kept. *)
Inductive Substituted (v : text) : list piece -> text -> Prop :=
| Sub_end : Substituted v [] []
| Sub_keep c ps out :
    Substituted v ps out -> Substituted v (Keep c :: ps) (c :: out)
| Sub_hit m ps out :
    Substituted v ps out -> Substituted v (Hit m :: ps) (v ++ out).

(** * Properties *)

(** ** Text operations *)

Lemma ascii_eqb_true (a b : ascii) : Ascii.eqb a b = true <-> a = b.
Proof. apply Ascii.eqb_eq. Qed.

Lemma startswith_app (p t : text) : startswith p (p ++ t) = true.
Proof.
  induction p as [|c p IH]; simpl; [reflexivity|].
  rewrite Ascii.eqb_refl. exact IH.
Qed.

Lemma startswith_inv (p s : text) :
  startswith p s = true -> exists t, s = p ++ t.
Proof.
  revert s. induction p as [|c p IH]; intros s Hs; simpl in *.
  - exists s. reflexivity.
  - destruct s as [|x s]; [discriminate|].
    apply andb_true_iff in Hs as [Hc Hp].
    apply Ascii.eqb_eq in Hc. subst x.
    destruct (IH _ Hp) as [t ->]. exists t. reflexivity.
Qed.

Lemma startswith_drop (p s : text) :
  startswith p s = true -> s = p ++ drop (length p) s.
Proof.
  intros Hs. destruct (startswith_inv _ _ Hs) as [t ->].
  rewrite drop_app_length. reflexivity.
Qed.

Lemma contains_intro (sub a b : text) : contains sub (a ++ sub ++ b) = true.
Proof.
  induction a as [|c a IH]; simpl.
  - destruct (sub ++ b) eqn:E; simpl;
      rewrite <- ?E, startswith_app; reflexivity.
  - rewrite IH. apply orb_true_r.
Qed.

Lemma contains_inv (sub s : text) :
  contains sub s = true -> exists a b, s = a ++ sub ++ b.
Proof.
  induction s as [|c s IH]; simpl; intros Hc.
  - rewrite orb_false_r in Hc. apply startswith_inv in Hc as [t Ht].
    exists [], t. exact Ht.
  - apply orb_true_iff in Hc as [Hc|Hc].
    + apply startswith_inv in Hc as [t Ht]. exists [], t. exact Ht.
    + destruct (IH Hc) as (a & b & ->). exists (c :: a), b. reflexivity.
Qed.

Lemma contains_startswith (sub s : text) :
  startswith sub s = true -> contains sub s = true.
Proof. intros Hs. destruct s; simpl; rewrite Hs; reflexivity. Qed.

(** [split1] cuts at the first occurrence of a separator that occurs. *)
Lemma split1_found (sep s : text) :
  contains sep s = true ->
  exists h b,
    split1 sep s = [h; b] /\ s = h ++ sep ++ b
    /\ forall h' b', s = h' ++ sep ++ b' -> length h <= length h'.
Proof.
  induction s as [|c s IH]; intros Hc.
  - simpl in Hc. rewrite orb_false_r in Hc.
    exists [], (drop (length sep) []). simpl. rewrite Hc.
    split; [reflexivity|]. split; [|intros; lia].
    simpl. rewrite <- (startswith_drop _ _ Hc). reflexivity.
  - simpl in Hc. simpl split1.
    destruct (startswith sep (c :: s)) eqn:Hs.
    + exists [], (drop (length sep) (c :: s)).
      split; [reflexivity|]. split; [|intros; simpl; lia].
      simpl. apply (startswith_drop _ _ Hs).
    + simpl in Hc. destruct (IH Hc) as (h & b & Hsp & Heq & Hmin).
      rewrite Hsp. exists (c :: h), b.
      split; [reflexivity|]. split; [simpl; congruence|].
      intros h' b' E. destruct h' as [|x h'].
      * simpl in E. rewrite E, startswith_app in Hs. discriminate.
      * injection E as -> E. specialize (Hmin _ _ E). simpl. lia.
Qed.

Lemma split1_not_found (sep s : text) :
  contains sep s = false -> split1 sep s = [s].
Proof.
  induction s as [|c s IH]; simpl; intros Hc.
  - apply orb_false_iff in Hc as [-> _]. reflexivity.
  - apply orb_false_iff in Hc as [-> Hc]. rewrite (IH Hc). reflexivity.
Qed.

(** *** Lower case *)

Lemma lower_app (a b : text) : lower (a ++ b) = lower a ++ lower b.
Proof. apply map_app. Qed.

Lemma lower_length (s : text) : length (lower s) = length s.
Proof. apply length_map. Qed.

Ltac each_ascii c :=
  destruct c as [[] [] [] [] [] [] [] []].

Lemma lower_char_colon (c : ascii) :
  Ascii.eqb (lower_char c) colon = Ascii.eqb c colon.
Proof. each_ascii c; vm_compute; reflexivity. Qed.

Lemma lower_char_idem (c : ascii) : lower_char (lower_char c) = lower_char c.
Proof. each_ascii c; vm_compute; reflexivity. Qed.

Lemma field_name_lower (header : text) :
  field_name (lower header) = option_map lower (field_name header).
Proof.
  induction header as [|c s IH]; simpl; [reflexivity|].
  rewrite lower_char_colon. destruct (Ascii.eqb c colon); [reflexivity|].
  fold (lower s). rewrite IH. destruct (field_name s); reflexivity.
Qed.

Lemma field_name_app_colon (name rest : text) :
  forallb (fun c => negb (Ascii.eqb c colon)) name = true ->
  field_name (name ++ colon :: rest) = Some name.
Proof.
  induction name as [|c n IH]; simpl; intros Hn; [reflexivity|].
  apply andb_true_iff in Hn as [Hc Hn].
  apply negb_true_iff in Hc. rewrite Hc, (IH Hn). reflexivity.
Qed.

Lemma field_name_inv (header name : text) :
  field_name header = Some name ->
  exists rest, header = name ++ colon :: rest.
Proof.
  revert name. induction header as [|c s IH]; simpl; intros name Hn.
  - discriminate.
  - destruct (Ascii.eqb c colon) eqn:Hc.
    + apply Ascii.eqb_eq in Hc. subst c. injection Hn as <-.
      exists s. reflexivity.
    + destruct (field_name s) as [n|]; [|discriminate].
      injection Hn as <-. destruct (IH n eq_refl) as [rest ->].
      exists rest. reflexivity.
Qed.

(** *** Lines *)

Lemma splitlines_from_nonempty (line s : text) :
  s <> [] -> splitlines_from line s <> [].
Proof.
  revert line. induction s as [|c s IH]; intros line Hs; [congruence|].
  simpl. destruct (is_linebreak c); [discriminate|].
  destruct s as [|c' s]; [simpl; destruct line; discriminate|].
  apply IH. discriminate.
Qed.

Lemma join_cons (sep l : text) (ls : list text) :
  ls <> [] -> join sep (l :: ls) = l ++ sep ++ join sep ls.
Proof. destruct ls; [congruence|reflexivity]. Qed.

Lemma LF_is_linebreak : is_linebreak LF = true.
Proof. reflexivity. Qed.

Lemma join_splitlines_from (line s : text) :
  lf_only s = true -> last s <> Some LF ->
  join [LF] (splitlines_from line s) = line ++ s.
Proof.
  revert line. induction s as [|c s IH]; intros line Hlf Hlast.
  - simpl. destruct line; simpl; rewrite ?app_nil_r; reflexivity.
  - simpl in Hlf. apply andb_true_iff in Hlf as [Hc Hlf].
    assert (Hlast' : last s <> Some LF).
    { destruct s; [discriminate|]. exact Hlast. }
    simpl. destruct (is_linebreak c) eqn:Hb.
    + simpl in Hc. apply Ascii.eqb_eq in Hc. subst c.
      change (Ascii.eqb LF CR) with false. cbv iota.
      destruct s as [|c' s]; [exfalso; apply Hlast; reflexivity|].
      rewrite join_cons by (apply splitlines_from_nonempty; discriminate).
      rewrite (IH [] Hlf Hlast'). reflexivity.
    + rewrite (IH _ Hlf Hlast'), <- app_assoc. reflexivity.
Qed.

(** Joining the lines of a text whose only line boundaries are line feeds,
    and which does not end in one, gives the text back. *)
Lemma join_splitlines (s : text) :
  lf_only s = true -> last s <> Some LF -> join [LF] (splitlines s) = s.
Proof. intros. unfold splitlines. rewrite join_splitlines_from; auto. Qed.

Lemma splitlines_from_app (acc l s : text) :
  no_linebreak l = true ->
  splitlines_from acc (l ++ s) = splitlines_from (acc ++ l) s.
Proof.
  revert acc. induction l as [|c l IH]; intros acc Hl; simpl.
  - rewrite app_nil_r. reflexivity.
  - simpl in Hl. apply andb_true_iff in Hl as [Hc Hl].
    apply negb_true_iff in Hc. rewrite Hc, (IH _ Hl), <- app_assoc.
    reflexivity.
Qed.

Lemma splitlines_from_join (l : text) (ls : list text) (acc : text) :
  Forall (fun x => no_linebreak x = true) (l :: ls) ->
  last (l :: ls) <> Some [] ->
  splitlines_from acc (join [LF] (l :: ls)) = (acc ++ l) :: ls.
Proof.
  revert l acc. induction ls as [|l2 ls IH]; intros l acc Hnb Hlast.
  - simpl. inversion Hnb as [|? ? Hl _]; subst.
    rewrite <- (app_nil_r l) at 1. rewrite (splitlines_from_app _ _ _ Hl).
    simpl. destruct (acc ++ l) eqn:E; [|reflexivity].
    apply app_eq_nil in E as [_ ->]. exfalso. apply Hlast. reflexivity.
  - inversion Hnb as [|? ? Hl Hrest]; subst.
    rewrite join_cons by discriminate.
    rewrite (splitlines_from_app _ _ _ Hl).
    change ([LF] ++ join [LF] (l2 :: ls)) with (LF :: join [LF] (l2 :: ls)).
    cbn [splitlines_from]. change (is_linebreak LF) with true.
    change (Ascii.eqb LF CR) with false. cbv iota.
    rewrite (IH l2 [] Hrest Hlast). reflexivity.
Qed.

(** Lines without line boundaries, joined by line feeds, are read back one
    by one (the last of them must not be empty: a final line feed opens no
    line). *)
Lemma splitlines_join (ls : list text) :
  Forall (fun x => no_linebreak x = true) ls ->
  last ls <> Some [] ->
  splitlines (join [LF] ls) = ls.
Proof.
  destruct ls as [|l ls]; [reflexivity|]. intros Hnb Hlast.
  unfold splitlines. rewrite splitlines_from_join; auto.
Qed.

Lemma splitlines_from_no_linebreak (acc s : text) :
  no_linebreak acc = true ->
  Forall (fun x => no_linebreak x = true) (splitlines_from acc s).
Proof.
  remember (length s) as n eqn:Hn. revert acc s Hn.
  induction n as [n IH] using lt_wf_ind. intros acc s -> Hacc.
  destruct s as [|c s]; simpl.
  - destruct acc; [constructor|]. constructor; [exact Hacc|constructor].
  - destruct (is_linebreak c) eqn:Hb.
    + constructor; [exact Hacc|].
      destruct (Ascii.eqb c CR).
      * destruct s as [|c' s].
        -- simpl. constructor.
        -- destruct (Ascii.eqb c' LF).
           ++ eapply IH; [|reflexivity|reflexivity]. simpl. lia.
           ++ eapply IH; [|reflexivity|reflexivity]. simpl. lia.
      * eapply IH; [|reflexivity|reflexivity]. simpl. lia.
    + eapply IH; [|reflexivity|]; [simpl; lia|].
      unfold no_linebreak. rewrite forallb_app. simpl.
      fold (no_linebreak acc). rewrite Hacc, Hb. reflexivity.
Qed.

(** No record of the header loop spans a line boundary. *)
Lemma headers_of_no_linebreak (header_part : text) :
  Forall (fun x => no_linebreak x = true) (headers_of header_part).
Proof. apply splitlines_from_no_linebreak. reflexivity. Qed.

Lemma join_splitlines_from_LF (line s : text) :
  lf_only s = true -> last s = Some LF ->
  join [LF] (splitlines_from line s) ++ [LF] = line ++ s.
Proof.
  revert line. induction s as [|c s IH]; intros line Hlf Hlast;
    [discriminate|].
  simpl in Hlf. apply andb_true_iff in Hlf as [Hc Hlf].
  cbn [splitlines_from]. destruct (is_linebreak c) eqn:Hb.
  - simpl in Hc. apply Ascii.eqb_eq in Hc. subst c.
    change (Ascii.eqb LF CR) with false. cbv iota.
    destruct s as [|c' s]; [reflexivity|].
    rewrite join_cons by (apply splitlines_from_nonempty; discriminate).
    rewrite <- !app_assoc. rewrite (IH [] Hlf Hlast). reflexivity.
  - destruct s as [|c' s].
    + simpl in Hlast. injection Hlast as ->. discriminate.
    + rewrite (IH _ Hlf Hlast), <- app_assoc. reflexivity.
Qed.

Lemma join_lf_only (ls : list text) :
  Forall (fun x => no_linebreak x = true) ls ->
  lf_only (join [LF] ls) = true.
Proof.
  assert (Hline : forall l, no_linebreak l = true -> lf_only l = true).
  { intros l. unfold no_linebreak, lf_only. rewrite !forallb_forall.
    intros Hl c Hc. rewrite (Hl c Hc). reflexivity. }
  induction 1 as [|l ls Hl _ IH]; [reflexivity|].
  destruct ls as [|l2 ls]; [apply Hline, Hl|].
  rewrite join_cons by discriminate. unfold lf_only in *.
  rewrite !forallb_app. rewrite (Hline l Hl), IH. reflexivity.
Qed.

(** Splitting a text into lines and joining them by line feeds gives the
    text back exactly when line feeds are its only line boundaries and it
    does not end in one. *)
Lemma join_splitlines_iff (s : text) :
  join [LF] (splitlines s) = s
  <-> lf_only s = true /\ last s <> Some LF.
Proof.
  split.
  - intros E.
    assert (Hlf : lf_only s = true).
    { rewrite <- E. apply join_lf_only.
      apply splitlines_from_no_linebreak. reflexivity. }
    split; [exact Hlf|]. intros Hlast.
    pose proof (join_splitlines_from_LF [] s Hlf Hlast) as E'.
    fold (splitlines s) in E'. rewrite E in E'. simpl in E'.
    apply (f_equal (@length ascii)) in E'. rewrite length_app in E'.
    simpl in E'. lia.
  - intros [Hlf Hlast]. apply join_splitlines; assumption.
Qed.

(** *** Line ends as text mode reads them *)

Lemma universal_newlines_no_CR (s : text) : ~ In CR (universal_newlines s).
Proof.
  remember (length s) as n eqn:Hn. revert s Hn.
  induction n as [n IH] using lt_wf_ind. intros s ->.
  destruct s as [|c s]; [intros []|].
  cbn [universal_newlines]. destruct (Ascii.eqb c CR) eqn:Hc.
  - intros [E|Hin]; [discriminate E|].
    destruct s as [|c' s]; [destruct Hin|].
    destruct (Ascii.eqb c' LF).
    + apply (IH (length s)) in Hin; [exact Hin|simpl; lia|reflexivity].
    + apply (IH (length (c' :: s))) in Hin;
        [exact Hin|simpl; lia|reflexivity].
  - intros [E|Hin].
    + subst c. rewrite Ascii.eqb_refl in Hc. discriminate.
    + apply (IH (length s)) in Hin; [exact Hin|simpl; lia|reflexivity].
Qed.

(** A text without carriage returns is read as it is. *)
Lemma universal_newlines_id (s : text) :
  ~ In CR s -> universal_newlines s = s.
Proof.
  induction s as [|c s IH]; intros Hno; [reflexivity|].
  cbn [universal_newlines]. destruct (Ascii.eqb c CR) eqn:Hc.
  - apply Ascii.eqb_eq in Hc. subst c. exfalso. apply Hno. left. reflexivity.
  - rewrite IH; [reflexivity|]. intros Hin. apply Hno. right. exact Hin.
Qed.

Lemma contains_In (sub s : text) (c : ascii) :
  contains sub s = true -> In c sub -> In c s.
Proof.
  intros Hc Hin. apply contains_inv in Hc as (a & b & ->).
  apply in_or_app. right. apply in_or_app. left. exact Hin.
Qed.

(** ** Classification by field name *)

Lemma startswith_name (k header : text) :
  colon_free (lower k) = true ->
  startswith (lower k ++ [colon]) (lower header) = true ->
  exists n, field_name header = Some n /\ lower n = lower k.
Proof.
  intros Hk Hs. apply startswith_inv in Hs as [t Ht].
  rewrite <- app_assoc in Ht. simpl in Ht.
  pose proof (field_name_lower header) as Hf.
  rewrite Ht, (field_name_app_colon _ _ Hk) in Hf.
  destruct (field_name header) as [n|]; [|discriminate].
  injection Hf as Hf. exists n. split; [reflexivity|congruence].
Qed.

Lemma name_startswith (k n header : text) :
  field_name header = Some n -> lower n = lower k ->
  startswith (lower k ++ [colon]) (lower header) = true.
Proof.
  intros Hf Hn. apply field_name_inv in Hf as [rest ->].
  rewrite lower_app, Hn.
  change (lower (colon :: rest)) with ([colon] ++ lower rest).
  rewrite app_assoc. apply startswith_app.
Qed.

(** The test of each branch of the loop compares the field name of the line,
    letter case apart, with the name of the branch. *)
Lemma startswith_field (k header : text) :
  colon_free (lower k) = true ->
  startswith (lower k ++ [colon]) (lower header)
  = match field_name header with
    | Some n => text_eqb (lower n) (lower k)
    | None => false
    end.
Proof.
  intros Hk. destruct (startswith _ _) eqn:Hs.
  - destruct (startswith_name _ _ Hk Hs) as (n & -> & Hn).
    unfold text_eqb. rewrite bool_decide_eq_true_2; auto.
  - destruct (field_name header) as [n|] eqn:Hf; [|reflexivity].
    unfold text_eqb. destruct (bool_decide_reflect (lower n = lower k)) as [E|E];
      [|reflexivity].
    rewrite (name_startswith _ _ _ Hf E) in Hs. discriminate.
Qed.

Ltac by_field_name :=
  change (str "received:") with (lower (str "Received") ++ [colon]);
  change (str "x-mailer:") with (lower (str "X-Mailer") ++ [colon]);
  change (str "message-id:") with (lower (str "Message-ID") ++ [colon]);
  change (str "date:") with (lower (str "Date") ++ [colon]);
  change (str "from:") with (lower (str "From") ++ [colon]);
  change (str "to:") with (lower (str "To") ++ [colon]);
  change (str "reply-to:") with (lower (str "Reply-To") ++ [colon]);
  rewrite !startswith_field by reflexivity.

Section RewriterFacts.
Context {G : Type} `{Faker G}.
Variables kx ob : bool.

(** A line whose field name is not in the table takes the last branch. *)
Lemma rewrite_header_unknown (header : text) (fake : G) :
  known_header header = false ->
  rewrite_header kx ob header fake = (Some header, fake).
Proof.
  unfold known_header, rewrite_header. by_field_name.
  destruct (field_name header) as [n|]; [|reflexivity].
  simpl. rewrite !orb_false_iff.
  intros (-> & -> & -> & -> & -> & -> & -> & _). reflexivity.
Qed.

Lemma rewrite_headers_app (pre post : list text) (fake : G) :
  rewrite_headers kx ob (pre ++ post) fake
  = (fst (rewrite_headers kx ob pre fake)
     ++ fst (rewrite_headers kx ob post
               (snd (rewrite_headers kx ob pre fake))),
     snd (rewrite_headers kx ob post
            (snd (rewrite_headers kx ob pre fake)))).
Proof.
  revert fake. induction pre as [|h pre IH]; intros fake; simpl.
  - destruct (rewrite_headers kx ob post fake); reflexivity.
  - destruct (rewrite_header kx ob h fake) as [o f1].
    rewrite IH. destruct (rewrite_headers kx ob pre f1) as [os f2]. simpl.
    destruct o; reflexivity.
Qed.

(** Lines that all take the last branch come out as they are and make no
    call to the provider. *)
Lemma rewrite_headers_unknown (headers : list text) (fake : G) :
  Forall (fun h => known_header h = false) headers ->
  rewrite_headers kx ob headers fake = (headers, fake).
Proof.
  induction 1 as [|h hs Hh _ IH]; simpl; [reflexivity|].
  rewrite (rewrite_header_unknown _ _ Hh), IH. reflexivity.
Qed.
End RewriterFacts.

Lemma field_name_continuation (line : text) :
  is_continuation line = true ->
  match field_name line with
  | Some n => exists c rest, n = c :: rest
               /\ (c = " "%char \/ c = ascii_of_N 9)
  | None => True
  end.
Proof.
  destruct line as [|c s]; simpl; [discriminate|]. intros Hc.
  destruct (Ascii.eqb c colon) eqn:E.
  - apply Ascii.eqb_eq in E. subst c. discriminate.
  - destruct (field_name s) as [n|]; simpl; [|exact I].
    exists c, n. split; [reflexivity|].
    apply orb_true_iff in Hc as [Hc|Hc]; apply Ascii.eqb_eq in Hc; auto.
Qed.

(** A line that begins with a space or a tab has no field name of the
    table. *)
Lemma continuation_unknown (line : text) :
  is_continuation line = true -> known_header line = false.
Proof.
  intros Hc. pose proof (field_name_continuation _ Hc) as Hf.
  unfold known_header. destruct (field_name line) as [n|]; [|reflexivity].
  destruct Hf as (c & rest & -> & [-> | ->]); reflexivity.
Qed.

(** ** Headers outside the table (C8) *)

Section Claims_headers.
Context {G : Type} `{Faker G}.
Variables kx ob : bool.

Lemma rewrite_headers_around (pre post : list text) (header : text)
  (fake : G) :
  known_header header = false ->
  fst (rewrite_headers kx ob (pre ++ header :: post) fake)
  = fst (rewrite_headers kx ob pre fake)
    ++ header
    :: fst (rewrite_headers kx ob post (snd (rewrite_headers kx ob pre fake))).
Proof.
  intros Hh. rewrite rewrite_headers_app. simpl.
  rewrite (rewrite_header_unknown _ _ _ _ Hh).
  destruct (rewrite_headers kx ob post _). reflexivity.
Qed.

(** C8: a header line whose field name (the text before its first colon,
    letter case apart) is not in the table Received, X-Mailer, Message-ID,
    Date, From, To, Reply-To is in the output unchanged, between the output
    of the lines before it and the output of the lines after it: it is
    never dropped and never moved. *)
Theorem C8_unknown_header_kept_in_place
  (marker content header_part body_part : text) (pre post : list text)
  (header : text) (fake : G) :
  split1 marker content = [header_part; body_part] ->
  headers_of header_part = pre ++ header :: post ->
  known_header header = false ->
  let before := rewrite_headers kx ob pre fake in
  let after := rewrite_headers kx ob post (snd before) in
  anonymize_content kx ob marker content fake
  = Some (join [LF] (fst before ++ header :: fst after)
          ++ marker ++ body_part)
  /\ fst (rewrite_headers kx ob (headers_of header_part) fake)
     = fst before ++ header :: fst after
  /\ rewrite_header kx ob header (snd before) = (Some header, snd before).
Proof.
  intros Hsplit Hlines Hh before after.
  pose proof (rewrite_headers_around pre post header fake Hh) as Hout.
  fold before in Hout. fold after in Hout.
  split; [|split].
  - unfold anonymize_content. rewrite Hsplit, Hlines.
    destruct (rewrite_headers kx ob (pre ++ header :: post) fake) as [o f].
    simpl in Hout. rewrite Hout. reflexivity.
  - rewrite Hlines. exact Hout.
  - apply rewrite_header_unknown. exact Hh.
Qed.

(** ** Address headers (C9) *)


(** ** One record per physical line (C3) *)

(** C3, as the code has it: every physical line of the header block is a
    record of its own, the lines that begin with a space or a tab as well;
    such a line is not joined to the record before it, it is copied to the
    output unchanged, whatever that record was, and without a call to the
    provider. *)
Theorem C3_every_physical_line_is_a_record (lines : list text) :
  Forall (fun l => no_linebreak l = true) lines ->
  last lines <> Some [] ->
  headers_of (join [LF] lines) = lines
  /\ length (headers_of (join [LF] lines)) = length lines
  /\ forall pre line post fake,
       lines = pre ++ line :: post ->
       is_continuation line = true ->
       fst (rewrite_headers kx ob lines fake)
       = fst (rewrite_headers kx ob pre fake)
         ++ line
         :: fst (rewrite_headers kx ob post
                   (snd (rewrite_headers kx ob pre fake))).
Proof.
  intros Hnb Hlast.
  assert (E : headers_of (join [LF] lines) = lines)
    by (apply splitlines_join; assumption).
  split; [exact E|]. split; [rewrite E; reflexivity|].
  intros pre line post fake -> Hc.
  apply rewrite_headers_around, continuation_unknown, Hc.
Qed.
End Claims_headers.

(** ** The separator between headers and body (C6, C5) *)

Lemma find_header_end_marker_cases (content marker : text) :
  find_header_end_marker content = Some marker ->
  (marker = [LF; LF] /\ contains [LF; LF] content = true)
  \/ (marker = [CR; LF; CR; LF] /\ contains [LF; LF] content = false
      /\ contains [CR; LF; CR; LF] content = true).
Proof.
  unfold find_header_end_marker.
  destruct (contains [LF; LF] content) eqn:E1; simpl.
  - intros [= <-]. left. auto.
  - destruct (contains [CR; LF; CR; LF] content) eqn:E2; simpl;
      [|discriminate].
    intros [= <-]. right. auto.
Qed.

Lemma find_header_end_marker_occurs (content marker : text) :
  find_header_end_marker content = Some marker ->
  contains marker content = true.
Proof.
  intros Hm. destruct (find_header_end_marker_cases _ _ Hm)
    as [[-> E] | (-> & _ & E)]; exact E.
Qed.

(** A header part cut at the bare separator does not end in a line feed. *)
Lemma header_part_no_final_LF (content header_part body_part : text) :
  content = header_part ++ [LF; LF] ++ body_part ->
  (forall h' b', content = h' ++ [LF; LF] ++ b' ->
                 length header_part <= length h') ->
  last header_part <> Some LF.
Proof.
  intros Hc Hmin Hl.
  destruct (last_Some header_part LF) as [Hx _].
  destruct (Hx Hl) as [h' Hh]. subst header_part.
  specialize (Hmin h' (LF :: body_part)).
  rewrite length_app in Hmin. simpl in Hmin.
  assert (length h' + 1 <= length h'); [|lia].
  apply Hmin. rewrite Hc, <- app_assoc. reflexivity.
Qed.

(** A text without carriage returns holds no carriage-return separator, so
    the order in which the two separators are looked for cannot matter. *)
Lemma no_CR_no_crlf_separator (content : text) :
  ~ In CR content -> contains [CR; LF; CR; LF] content = false.
Proof.
  intros Hno. destruct (contains [CR; LF; CR; LF] content) eqn:E;
    [|reflexivity].
  exfalso. apply Hno. apply (contains_In _ _ CR E). left. reflexivity.
Qed.

Lemma find_header_end_marker_no_CR (content : text) :
  ~ In CR content ->
  find_header_end_marker content = find_header_end_marker_crlf_first content.
Proof.
  intros Hno. unfold find_header_end_marker, find_header_end_marker_crlf_first.
  rewrite (no_CR_no_crlf_separator _ Hno).
  destruct (contains [LF; LF] content); reflexivity.
Qed.

Section Claims_separator.
Context {G : Type} `{Faker G}.
Variables kx ob : bool.

(** The first occurrence of the separator that was found cuts the text into
    headers and body, and the output ends in that separator, as it is,
    followed by the body. *)
Lemma separator_split (content marker : text) (fake : G) :
  find_header_end_marker content = Some marker ->
  exists header_part body_part,
    split1 marker content = [header_part; body_part]
    /\ content = header_part ++ marker ++ body_part
    /\ (forall h' b', content = h' ++ marker ++ b' ->
                      length header_part <= length h')
    /\ anonymize_content kx ob marker content fake
       = Some (join [LF]
                 (fst (rewrite_headers kx ob (headers_of header_part) fake))
               ++ marker ++ body_part).
Proof.
  intros Hm.
  pose proof (find_header_end_marker_occurs _ _ Hm) as Hocc.
  destruct (split1_found _ _ Hocc) as (h & b & Hs & Hc & Hmin).
  exists h, b. repeat split; auto.
  unfold anonymize_content. rewrite Hs.
  destruct (rewrite_headers _ _ _ _); reflexivity.
Qed.


(** C5, as the code has it: the text is the header part, the separator and
    the body; when no header line is rewritten or dropped, the output is the
    lines of the header part in order, joined by single line feeds, then the
    separator and the body as they were; the header part comes out as it
    was, and so the output is the input itself, if and only if line feeds
    are the only line boundaries of the header part and the part does not
    end in one, which it never does before the bare separator. *)
Theorem C5_split_assemble (content marker header_part body_part : text)
  (fake : G) :
  find_header_end_marker content = Some marker ->
  split1 marker content = [header_part; body_part] ->
  Forall (fun h => known_header h = false) (headers_of header_part) ->
  content = header_part ++ marker ++ body_part
  /\ anonymize_content kx ob marker content fake
     = Some (join [LF] (headers_of header_part) ++ marker ++ body_part)
  /\ (join [LF] (headers_of header_part) = header_part
      <-> lf_only header_part = true /\ last header_part <> Some LF)
  /\ (anonymize_content kx ob marker content fake = Some content
      <-> lf_only header_part = true /\ last header_part <> Some LF)
  /\ (marker = [LF; LF] ->
      last header_part <> Some LF
      /\ (anonymize_content kx ob marker content fake = Some content
          <-> lf_only header_part = true)).
Proof.
  intros Hm Hs Hun.
  pose proof (find_header_end_marker_occurs _ _ Hm) as Hocc.
  destruct (split1_found _ _ Hocc) as (h & b & Hs' & Hc & Hmin).
  rewrite Hs in Hs'. injection Hs' as <- <-.
  assert (E : anonymize_content kx ob marker content fake
              = Some (join [LF] (headers_of header_part)
                      ++ marker ++ body_part)).
  { unfold anonymize_content. rewrite Hs.
    rewrite (rewrite_headers_unknown _ _ _ _ Hun). reflexivity. }
  assert (Hiff : anonymize_content kx ob marker content fake = Some content
                 <-> lf_only header_part = true
                     /\ last header_part <> Some LF).
  { rewrite E, <- join_splitlines_iff. unfold headers_of. split.
    - intros [= Eq]. rewrite Hc in Eq.
      apply app_inv_tail in Eq. exact Eq.
    - intros ->. rewrite <- Hc. reflexivity. }
  split; [exact Hc|]. split; [exact E|].
  split; [apply join_splitlines_iff|]. split; [exact Hiff|].
  intros ->.
  assert (Hlast : last header_part <> Some LF)
    by (eapply header_part_no_final_LF; eauto).
  split; [exact Hlast|]. rewrite Hiff. tauto.
Qed.
End Claims_separator.

(** ** A text without separator (C4) *)

Lemma find_header_end_marker_none (content : text) :
  contains [LF; LF] content = false ->
  contains [CR; LF; CR; LF] content = false ->
  find_header_end_marker content = None.
Proof. unfold find_header_end_marker. intros -> ->. reflexivity. Qed.

Lemma reported_log (r : log_record) (w : World) :
  severity (threshold w) <= severity (level_of r) ->
  In r (reported (log r w)).
Proof.
  intros Hs. unfold reported, log. simpl.
  apply list_elem_of_In, list_elem_of_filter. split; [exact Hs|].
  apply list_elem_of_In, in_or_app. right. left. reflexivity.
Qed.

Section Claims_program.
Context {G : Type} `{Faker G} `{Codec}.

Lemma main_without_separator (args : Args) (fake : G) (w : World)
  (raw_data : bytes) (email_content : text) :
  files w !! input_file args = Some raw_data ->
  decode (default "utf-8"%string (detect raw_data)) raw_data
  = Some email_content ->
  find_header_end_marker email_content = None ->
  main args fake w
  = (0, log NoSeparator {| files := files w; logged := logged w;
                           threshold := log_level args |}).
Proof.
  intros Hfile Hdec Hm.
  unfold main. simpl. rewrite Hfile.
  rewrite bool_decide_eq_true_2 by eauto. simpl.
  unfold anonymize_email_headers, try_block. simpl.
  rewrite Hfile, Hdec, Hm. reflexivity.
Qed.

(** C4, as the code has it: when the text read from the input file holds
    neither separator, the program passes the diagnostic to the logger at
    level ERROR (it is reported unless the log level is CRITICAL), writes
    nothing (no file is created or changed, the output file included), and
    ends with exit status 0: [anonymize_email_headers] returns and [main]
    has no [sys.exit] after it. *)
Theorem C4_no_separator_no_output (args : Args) (fake : G) (w : World)
  (raw_data : bytes) (email_content : text) :
  files w !! input_file args = Some raw_data ->
  decode (default "utf-8"%string (detect raw_data)) raw_data
  = Some email_content ->
  contains [LF; LF] email_content = false ->
  contains [CR; LF; CR; LF] email_content = false ->
  exists w',
    main args fake w = (0, w')
    /\ files w' = files w
    /\ logged w' = logged w ++ [NoSeparator]
    /\ (log_level args <> CRITICAL -> In NoSeparator (reported w')).
Proof.
  intros Hfile Hdec H1 H2.
  rewrite (main_without_separator args fake w raw_data email_content Hfile
             Hdec (find_header_end_marker_none _ H1 H2)).
  eexists. split; [reflexivity|]. simpl.
  split; [reflexivity|]. split; [reflexivity|].
  intros Hl.
  match goal with |- In _ (reported (log _ ?w0)) =>
    apply (reported_log NoSeparator w0) end.
  simpl. destruct (log_level args); simpl; try lia. congruence.
Qed.
End Claims_program.

Lemma demo_world_file (content : text) :
  files (demo_world content) !! input_file demo_args
  = Some (map byte_of_ascii content).
Proof. apply lookup_singleton_eq. Qed.

Lemma latin1_roundtrip (content : text) :
  map ascii_of_byte (map byte_of_ascii content) = content.
Proof.
  rewrite map_map. rewrite <- (map_id content) at 2.
  apply map_ext. intros c. apply ascii_of_byte_of_ascii.
Qed.

(** C4, witness: the run on a file that holds one header line and no
    separator. *)
Lemma C4_no_separator_no_output_witness :
  exists w',
    main demo_args 0 (demo_world (str "Subject: hello")) = (0, w')
    /\ files w' = files (demo_world (str "Subject: hello"))
    /\ logged w' = [NoSeparator]
    /\ (log_level demo_args <> CRITICAL -> In NoSeparator (reported w')).
Proof.
  apply (C4_no_separator_no_output demo_args 0
           (demo_world (str "Subject: hello"))
           (map byte_of_ascii (str "Subject: hello")) (str "Subject: hello")).
  - apply demo_world_file.
  - simpl. f_equal.
  - reflexivity.
  - reflexivity.
Defined.

(** C4 as stated fails: on a text without separator the exit status is 0. *)
Lemma C4_counterexample_exit_status_zero :
  find_header_end_marker (str "Subject: hello") = None
  /\ ~ fst (main demo_args 0 (demo_world (str "Subject: hello"))) <> 0.
Proof.
  split; [reflexivity|].
  rewrite (main_without_separator demo_args 0
             (demo_world (str "Subject: hello"))
             (map byte_of_ascii (str "Subject: hello")) (str "Subject: hello")
             (demo_world_file _)); [|simpl; f_equal|reflexivity].
  simpl. intros Hn. apply Hn. reflexivity.
Qed.

(** ** The matcher and what the patterns match *)

Lemma set_plus_sound (items : list (ascii * ascii)) (s : text) (k : cont)
  (p : option ascii) (res : option ascii * text) :
  set_plus (in_set items) s k = Some res ->
  exists p' s', Matches (SetPlus items) p s p' s' /\ k p' s' = Some res.
Proof.
  revert p. induction s as [|c s IH]; intros p; simpl; [discriminate|].
  destruct (in_set items c) eqn:Hc; [|discriminate].
  destruct (set_plus (in_set items) s k) as [r|] eqn:E.
  - intros [= <-]. destruct (IH (Some c) eq_refl) as (p' & s' & Hm & Hk).
    exists p', s'. split; [|exact Hk]. apply M_plus_S; assumption.
  - intros Hk. exists (Some c), s. split; [|exact Hk].
    apply M_plus_1. exact Hc.
Qed.

(** Whatever the matcher finds is a match of the pattern. *)
Lemma backtrack_sound (r : regex) :
  forall (p : option ascii) (s : text) (k : cont) (res : option ascii * text),
    backtrack r p s k = Some res ->
    exists p' s', Matches r p s p' s' /\ k p' s' = Some res.
Proof.
  induction r as [c|items|r1 IH1 r2 IH2|r1 IH1 r2 IH2|r1 IH1|n r1 IH1|items| |r1 IH1];
    intros p s k res; simpl.
  - destruct s as [|x s]; [discriminate|].
    destruct (Ascii.eqb x c) eqn:E; [|discriminate].
    apply Ascii.eqb_eq in E. subst x. intros Hk.
    exists (Some c), s. split; [constructor|exact Hk].
  - destruct s as [|x s]; [discriminate|].
    destruct (in_set items x) eqn:E; [|discriminate].
    intros Hk. exists (Some x), s. split; [constructor; exact E|exact Hk].
  - intros Hb. apply IH1 in Hb as (p1 & s1 & Hm1 & Hb).
    apply IH2 in Hb as (p2 & s2 & Hm2 & Hk).
    exists p2, s2. split; [econstructor; eassumption|exact Hk].
  - destruct (backtrack r1 p s k) as [r|] eqn:E.
    + intros [= <-]. apply IH1 in E as (p' & s' & Hm & Hk).
      exists p', s'. split; [apply M_alt_l; exact Hm|exact Hk].
    + intros Hb. apply IH2 in Hb as (p' & s' & Hm & Hk).
      exists p', s'. split; [apply M_alt_r; exact Hm|exact Hk].
  - destruct (backtrack r1 p s k) as [r|] eqn:E.
    + intros [= <-]. apply IH1 in E as (p' & s' & Hm & Hk).
      exists p', s'. split; [apply M_opt_some; exact Hm|exact Hk].
    + intros Hk. exists p, s. split; [apply M_opt_none|exact Hk].
  - revert p s. induction n as [|n IHn]; intros p s.
    + intros Hk. exists p, s. split; [constructor|exact Hk].
    + intros Hb. apply IH1 in Hb as (p1 & s1 & Hm1 & Hb).
      apply IHn in Hb as (p2 & s2 & Hm2 & Hk).
      exists p2, s2. split; [econstructor; eassumption|exact Hk].
  - apply set_plus_sound.
  - destruct (xorb _ _) eqn:E; [|discriminate].
    intros Hk. exists p, s. split; [constructor; exact E|exact Hk].
  - intros Hb. apply IH1 in Hb as (p' & s' & Hm & Hk).
    exists p', s'. split; [constructor; exact Hm|exact Hk].
Qed.

(** Where the pattern has a match after which the rest of the pattern goes
    through, the matcher finds one. *)
Lemma backtrack_complete (r : regex) (p : option ascii) (s : text)
  (p' : option ascii) (s' : text) :
  Matches r p s p' s' ->
  forall k : cont, is_Some (k p' s') -> is_Some (backtrack r p s k).
Proof.
  induction 1 as [c p t|items x p t Hx|r1 r2 p s p1 s1 p2 s2 _ IH1 _ IH2
                 |r1 r2 p s p' s' _ IH|r1 r2 p s p' s' _ IH
                 |r p s p' s' _ IH|r p s|r p s
                 |n r p s p1 s1 p2 s2 _ IH1 _ IH2
                 |items x p t Hx|items x p t p' t' Hx _ IH
                 |p s Hb|r p s p' s' _ IH];
    intros k Hk; simpl.
  - rewrite Ascii.eqb_refl. exact Hk.
  - rewrite Hx. exact Hk.
  - apply IH1, IH2, Hk.
  - destruct (IH k Hk) as [res ->]. eauto.
  - destruct (backtrack r1 p s k); [eauto|]. apply IH, Hk.
  - destruct (IH k Hk) as [res ->]. eauto.
  - destruct (backtrack r p s k); [eauto|]. exact Hk.
  - exact Hk.
  - apply IH1. apply (IH2 k Hk).
  - rewrite Hx. destruct (set_plus (in_set items) t k); [eauto|exact Hk].
  - rewrite Hx. specialize (IH k Hk). simpl in IH.
    destruct IH as [res ->]. eauto.
  - rewrite Hb. exact Hk.
  - apply IH, Hk.
Qed.

Lemma last_of_app (p : option ascii) (a b : text) :
  last_of p (a ++ b) = last_of (last_of p a) b.
Proof.
  unfold last_of. rewrite last_app.
  destruct (last b); [reflexivity|]. reflexivity.
Qed.

Lemma last_of_cons (p : option ascii) (c : ascii) (m : text) :
  last_of p (c :: m) = last_of (Some c) m.
Proof. apply (last_of_app p [c] m). Qed.

(** A match consumes a prefix of the text. *)
Lemma Matches_prefix (r : regex) (p : option ascii) (s : text)
  (p' : option ascii) (s' : text) :
  Matches r p s p' s' -> exists m, s = m ++ s' /\ p' = last_of p m.
Proof.
  induction 1 as [c p t|items x p t Hx|r1 r2 p s p1 s1 p2 s2 _ IH1 _ IH2
                 |r1 r2 p s p' s' _ IH|r1 r2 p s p' s' _ IH
                 |r p s p' s' _ IH|r p s|r p s
                 |n r p s p1 s1 p2 s2 _ IH1 _ IH2
                 |items x p t Hx|items x p t p' t' Hx _ IH
                 |p s Hb|r p s p' s' _ IH].
  - exists [c]. auto.
  - exists [x]. auto.
  - destruct IH1 as (m1 & -> & ->), IH2 as (m2 & -> & ->).
    exists (m1 ++ m2). rewrite last_of_app, app_assoc. auto.
  - exact IH.
  - exact IH.
  - exact IH.
  - exists []. auto.
  - exists []. auto.
  - destruct IH1 as (m1 & -> & ->), IH2 as (m2 & -> & ->).
    exists (m1 ++ m2). rewrite last_of_app, app_assoc. auto.
  - exists [x]. auto.
  - destruct IH as (m & -> & ->). exists (x :: m).
    rewrite last_of_cons. auto.
  - exists []. auto.
  - exact IH.
Qed.

Lemma match_here_sound (r : regex) (p : option ascii) (s : text)
  (p' : option ascii) (rest : text) :
  match_here r p s = Some (p', rest) -> Matches r p s p' rest.
Proof.
  intros Hm. apply backtrack_sound in Hm as (q & t & Hm & [= -> ->]).
  exact Hm.
Qed.

Lemma match_here_complete (r : regex) (p : option ascii) (s : text)
  (p' : option ascii) (rest : text) :
  Matches r p s p' rest -> is_Some (match_here r p s).
Proof. intros Hm. eapply backtrack_complete; eauto. Qed.

(** ** The scan *)

(** With fuel for every character, the scan is the left-to-right search. *)
Lemma scan_Scanned (r : regex) (fuel : nat) :
  forall (prev : option ascii) (s : text),
    length s <= fuel -> Scanned r prev s (scan fuel r prev s).
Proof.
  induction fuel as [|fuel IH]; intros prev s Hlen.
  - destruct s; [constructor|simpl in Hlen; lia].
  - destruct s as [|c s]; [constructor|].
    cbn [scan]. destruct (match_here r prev (c :: s)) as [[p' rest]|] eqn:E.
    + pose proof (match_here_sound _ _ _ _ _ E) as Hm.
      destruct (Matches_prefix _ _ _ _ _ Hm) as (m & Hs & ->).
      destruct (length rest <? length (c :: s)) eqn:Hlt.
      * apply Nat.ltb_lt in Hlt. rewrite Hs in *.
        rewrite length_app in *.
        replace (length m + length rest - length rest) with (length m) by lia.
        rewrite take_app_length.
        apply Sc_hit.
        -- destruct m; [simpl in Hlt; lia|discriminate].
        -- exact E.
        -- apply IH. simpl in Hlen. lia.
      * apply Nat.ltb_ge in Hlt. apply Sc_keep.
        -- intros q t Hq. rewrite E in Hq. injection Hq as _ <-.
           rewrite Hs in Hlt. rewrite length_app in Hlt.
           assert (length m = 0) by lia. destruct m; [|discriminate].
           simpl in Hs. rewrite <- Hs. reflexivity.
        -- apply IH. simpl in Hlen. lia.
    + apply Sc_keep; [intros q t Hq; rewrite E in Hq; discriminate|].
      apply IH. simpl in Hlen. lia.
Qed.

Lemma finditer_Scanned (r : regex) (s : text) :
  Scanned r None s (finditer r s).
Proof. apply scan_Scanned. reflexivity. Qed.

(** More fuel than characters changes nothing. *)
Lemma scan_fuel (r : regex) (fuel : nat) :
  forall (prev : option ascii) (s : text),
    length s <= fuel -> scan fuel r prev s = scan (length s) r prev s.
Proof.
  induction fuel as [fuel IH] using lt_wf_ind. intros prev s Hlen.
  destruct s as [|c s]; [destruct fuel; reflexivity|].
  destruct fuel as [|fuel]; [simpl in Hlen; lia|].
  cbn [scan length].
  destruct (match_here r prev (c :: s)) as [[p' rest]|] eqn:E.
  - pose proof (match_here_sound _ _ _ _ _ E) as Hm.
    destruct (Matches_prefix _ _ _ _ _ Hm) as (m & Hs & ->).
    change (S (length s)) with (length (c :: s)).
    destruct (length rest <? length (c :: s)) eqn:Hlt.
    + apply Nat.ltb_lt in Hlt. f_equal. simpl in Hlen, Hlt.
      rewrite (IH fuel) by lia.
      rewrite (IH (length s)) by lia. reflexivity.
    + f_equal. simpl in Hlen. rewrite (IH fuel) by lia. reflexivity.
  - f_equal. simpl in Hlen. rewrite (IH fuel) by lia. reflexivity.
Qed.

(** The pieces stand for the scanned text. *)
Lemma Scanned_originals (r : regex) (prev : option ascii) (s : text)
  (pieces : list piece) :
  Scanned r prev s pieces -> originals pieces = s.
Proof.
  induction 1 as [prev|prev c s ps _ _ IH|prev m rest ps _ _ _ IH].
  - reflexivity.
  - unfold originals in *. simpl. rewrite IH. reflexivity.
  - unfold originals in *. simpl. rewrite IH. reflexivity.
Qed.

Lemma originals_app (a b : list piece) :
  originals (a ++ b) = originals a ++ originals b.
Proof. apply flat_map_app. Qed.

(** Every match of the scan is one the matcher finds where it stands, and
    the characters around it are those of the text. *)
Lemma Scanned_hit (r : regex) (prev : option ascii) (s : text)
  (pieces : list piece) :
  Scanned r prev s pieces ->
  forall before m after,
    pieces = before ++ Hit m :: after ->
    m <> []
    /\ Matches r (last_of prev (originals before)) (m ++ originals after)
         (last_of prev (originals before ++ m)) (originals after).
Proof.
  induction 1 as [prev|prev c s ps _ Hs IH|prev m0 rest ps Hne Hm Hs IH];
    intros before m after Hp.
  - destruct before; discriminate.
  - destruct before as [|b before]; [discriminate|].
    injection Hp as <- Hp. specialize (IH _ _ _ Hp).
    unfold originals in *. simpl. rewrite !last_of_cons. exact IH.
  - destruct before as [|b before].
    + injection Hp as <- <-. split; [exact Hne|].
      rewrite (Scanned_originals _ _ _ _ Hs). simpl.
      apply match_here_sound. exact Hm.
    + injection Hp as <- Hp. specialize (IH _ _ _ Hp).
      unfold originals in *. simpl. rewrite <- !app_assoc, !last_of_app.
      rewrite !last_of_app in IH. exact IH.
Qed.

(** Every character the scan keeps stands where the matcher finds nothing
    that consumes a character. *)
Lemma Scanned_keep (r : regex) (prev : option ascii) (s : text)
  (pieces : list piece) :
  Scanned r prev s pieces ->
  forall before c after,
    pieces = before ++ Keep c :: after ->
    forall p' rest,
      match_here r (last_of prev (originals before)) (c :: originals after)
      = Some (p', rest) ->
      length rest = S (length (originals after)).
Proof.
  induction 1 as [prev|prev c0 s ps Hk Hs IH|prev m0 rest0 ps Hne Hm Hs IH];
    intros before c after Hp.
  - destruct before; discriminate.
  - destruct before as [|b before].
    + injection Hp as <- <-. rewrite (Scanned_originals _ _ _ _ Hs).
      exact Hk.
    + injection Hp as <- Hp. specialize (IH _ _ _ Hp).
      unfold originals in *. simpl. rewrite last_of_cons. exact IH.
  - destruct before as [|b before]; [discriminate|].
    injection Hp as <- Hp. specialize (IH _ _ _ Hp).
    unfold originals in *. simpl. rewrite last_of_app. exact IH.
Qed.

(** ** What the octet pattern matches *)

Lemma in_range_spec (lo hi x : ascii) :
  in_range lo hi x = true <-> (code lo <= code x <= code hi)%N.
Proof.
  unfold in_range. rewrite andb_true_iff, !N.leb_le. reflexivity.
Qed.

Lemma code_inj (a b : ascii) : code a = code b -> a = b.
Proof.
  unfold code. intros E.
  rewrite <- (ascii_N_embedding a), <- (ascii_N_embedding b), E. reflexivity.
Qed.

Lemma is_digit_spec (x : ascii) :
  is_digit x = true <-> (48 <= code x <= 57)%N.
Proof. apply in_range_spec. Qed.

Lemma is_digit_word (x : ascii) : is_digit x = true -> is_word x = true.
Proof. unfold is_word, is_digit. intros ->. reflexivity. Qed.

Lemma is_octet_1 (a : ascii) : is_digit a = true -> is_octet [a] = true.
Proof.
  intros Ha. unfold is_octet. simpl. rewrite Ha. simpl.
  apply is_digit_spec in Ha. apply N.leb_le. unfold decimal. simpl. lia.
Qed.

Lemma is_octet_2 (a b : ascii) :
  is_digit a = true -> is_digit b = true -> is_octet [a; b] = true.
Proof.
  intros Ha Hb. unfold is_octet. simpl. rewrite Ha, Hb. simpl.
  apply is_digit_spec in Ha, Hb. apply N.leb_le. unfold decimal. simpl. lia.
Qed.

Lemma is_octet_3 (a b c : ascii) :
  is_digit a = true -> is_digit b = true -> is_digit c = true ->
  (100 * (code a - 48) + 10 * (code b - 48) + (code c - 48) <= 255)%N ->
  is_octet [a; b; c] = true.
Proof.
  intros Ha Hb Hc Hv. unfold is_octet. simpl. rewrite Ha, Hb, Hc. simpl.
  apply is_digit_spec in Ha, Hb, Hc. apply N.leb_le. unfold decimal. simpl.
  lia.
Qed.

Lemma is_octet_inv (d : text) :
  is_octet d = true ->
  (exists a, d = [a] /\ is_digit a = true)
  \/ (exists a b, d = [a; b] /\ is_digit a = true /\ is_digit b = true)
  \/ (exists a b c,
        d = [a; b; c] /\ is_digit a = true /\ is_digit b = true
        /\ is_digit c = true
        /\ (100 * (code a - 48) + 10 * (code b - 48) + (code c - 48)
            <= 255)%N).
Proof.
  unfold is_octet. rewrite !andb_true_iff.
  intros [[[H1 H3] Hd] Hv].
  destruct d as [|a [|b [|c [|x d]]]]; simpl in H1, H3; try discriminate.
  - left. exists a. simpl in Hd. rewrite andb_true_r in Hd. auto.
  - right. left. exists a, b. simpl in Hd. rewrite andb_true_r in Hd.
    apply andb_true_iff in Hd as [Ha Hb]. auto.
  - right. right. exists a, b, c. simpl in Hd. rewrite andb_true_r in Hd.
    apply andb_true_iff in Hd as [Ha Hd].
    apply andb_true_iff in Hd as [Hb Hc].
    repeat split; auto.
    apply N.leb_le in Hv. unfold decimal in Hv. simpl in Hv.
    apply is_digit_spec in Ha, Hb, Hc. lia.
Qed.

Lemma is_octet_digits (d : text) :
  is_octet d = true -> d <> [] /\ forallb is_digit d = true.
Proof.
  intros Hd. destruct (is_octet_inv _ Hd)
    as [(a & -> & Ha) | [(a & b & -> & Ha & Hb)
                        | (a & b & c & -> & Ha & Hb & Hc & _)]];
    simpl; rewrite ?Ha, ?Hb, ?Hc; split; (discriminate || reflexivity).
Qed.

Ltac set_facts :=
  repeat match goal with
    | H : in_set _ _ = true |- _ =>
        unfold in_set, digit in H; simpl in H;
        rewrite ?orb_false_r, ?orb_true_iff, ?in_range_spec in H
    end.

Ltac literal_codes :=
  repeat match goal with
    | |- context [code (Ascii ?a ?b ?c ?d ?e ?f ?g ?h)] =>
        let v := eval vm_compute in (code (Ascii a b c d e f g h)) in
        change (code (Ascii a b c d e f g h)) with v
    | H : context [code (Ascii ?a ?b ?c ?d ?e ?f ?g ?h)] |- _ =>
        let v := eval vm_compute in (code (Ascii a b c d e f g h)) in
        change (code (Ascii a b c d e f g h)) with v in H
    end.

Ltac invert_match :=
  repeat match goal with
    | H : Matches (Lit _) _ _ _ _ |- _ => inversion H; subst; clear H
    | H : Matches (CharSet _) _ _ _ _ |- _ => inversion H; subst; clear H
    | H : Matches (Seq _ _) _ _ _ _ |- _ => inversion H; subst; clear H
    | H : Matches (Alt _ _) _ _ _ _ |- _ => inversion H; subst; clear H
    | H : Matches (Opt _) _ _ _ _ |- _ => inversion H; subst; clear H
    | H : Matches (Group _) _ _ _ _ |- _ => inversion H; subst; clear H
    | H : Matches WordB _ _ _ _ |- _ => inversion H; subst; clear H
    | H : Matches (Times (S _) _) _ _ _ _ |- _ => inversion H; subst; clear H
    | H : Matches (Times 0 _) _ _ _ _ |- _ => inversion H; subst; clear H
    end.

(** The octet pattern matches one to three digits that denote at most
    255. *)
Lemma octet_sound (p : option ascii) (s : text) (p' : option ascii)
  (s' : text) :
  Matches octet_pattern p s p' s' ->
  exists d, s = d ++ s' /\ p' = last_of p d /\ is_octet d = true.
Proof.
  unfold octet_pattern. intros Hm. invert_match; set_facts; literal_codes.
  all: first
    [ eexists [_; _; _]; split; [reflexivity|]; split; [reflexivity|];
      apply is_octet_3; rewrite ?is_digit_spec; literal_codes; lia
    | eexists [_; _]; split; [reflexivity|]; split; [reflexivity|];
      apply is_octet_2; rewrite ?is_digit_spec; literal_codes; lia
    | eexists [_]; split; [reflexivity|]; split; [reflexivity|];
      apply is_octet_1; rewrite ?is_digit_spec; literal_codes; lia ].
Qed.

Lemma in_set_digit (x : ascii) : in_set digit x = is_digit x.
Proof. unfold in_set, digit. simpl. apply orb_false_r. Qed.

Lemma M_digit (x : ascii) (p : option ascii) (t : text) :
  is_digit x = true -> Matches (CharSet digit) p (x :: t) (Some x) t.
Proof. intros Hx. constructor. rewrite in_set_digit. exact Hx. Qed.

(** One to three digits that denote at most 255 match the octet pattern. *)
Lemma octet_complete (d : text) (p : option ascii) (s' : text) :
  is_octet d = true ->
  Matches octet_pattern p (d ++ s') (last_of p d) s'.
Proof.
  intros Hd. unfold octet_pattern.
  destruct (is_octet_inv _ Hd)
    as [(a & -> & Ha) | [(a & b & -> & Ha & Hb)
                        | (a & b & c & -> & Ha & Hb & Hc & Hv)]].
  - apply M_alt_r, M_alt_r. eapply M_seq; [apply M_opt_none|].
    eapply M_seq; [apply M_digit, Ha|apply M_opt_none].
  - apply M_alt_r, M_alt_r. eapply M_seq; [apply M_opt_none|].
    eapply M_seq; [apply M_digit, Ha|]. apply M_opt_some, M_digit, Hb.
  - pose proof Ha as Ha'. pose proof Hb as Hb'. pose proof Hc as Hc'.
    apply is_digit_spec in Ha', Hb', Hc'.
    destruct (N.le_gt_cases (code a) 49) as [Hlow|Hhigh].
    + apply M_alt_r, M_alt_r.
      eapply M_seq; [apply M_opt_some; constructor|].
      * unfold in_set. simpl. rewrite orb_false_r, orb_true_iff.
        rewrite !in_range_spec. literal_codes. lia.
      * eapply M_seq; [apply M_digit, Hb|]. apply M_opt_some, M_digit, Hc.
    + assert (Ea : a = "2"%char) by (apply code_inj; literal_codes; lia).
      subst a. literal_codes.
      destruct (N.le_gt_cases (code b) 52) as [Hb4|Hb5].
      * apply M_alt_r, M_alt_l. eapply M_seq; [constructor|].
        eapply M_seq; [constructor|apply M_digit, Hc].
        unfold in_set. simpl. rewrite orb_false_r, in_range_spec.
        literal_codes. lia.
      * assert (Eb : b = "5"%char) by (apply code_inj; literal_codes; lia).
        subst b. literal_codes.
        apply M_alt_l. eapply M_seq; [constructor|].
        eapply M_seq; [constructor|]. constructor.
        unfold in_set. simpl. rewrite orb_false_r, in_range_spec.
        literal_codes. lia.
Qed.

(** ** What the address pattern matches *)

Lemma octet_first (d : text) (rest : text) :
  is_octet d = true -> is_word_at (head (d ++ rest)) = true.
Proof.
  intros Hd. destruct (is_octet_digits _ Hd) as [Hne Hdig].
  destruct d as [|a d]; [congruence|]. simpl in *.
  apply andb_true_iff in Hdig as [Ha _]. apply is_digit_word, Ha.
Qed.

Lemma forallb_last (f : ascii -> bool) (d : text) :
  forallb f d = true -> d <> [] -> exists c, last d = Some c /\ f c = true.
Proof.
  induction d as [|a d IH]; intros Hf Hne; [congruence|].
  simpl in Hf. apply andb_true_iff in Hf as [Ha Hf].
  destruct d as [|b d]; [exists a; auto|].
  destruct (IH Hf) as (c & Hl & Hc); [discriminate|].
  exists c. auto.
Qed.

Lemma octet_last (p : option ascii) (d : text) :
  is_octet d = true -> is_word_at (last_of p d) = true.
Proof.
  intros Hd. destruct (is_octet_digits _ Hd) as [Hne Hdig].
  destruct (forallb_last _ _ Hdig Hne) as (c & Hl & Hc).
  unfold last_of. rewrite Hl. apply is_digit_word, Hc.
Qed.

Ltac invert_ip :=
  repeat match goal with
    | H : Matches octet_pattern _ _ _ _ |- _ =>
        apply octet_sound in H; destruct H as (? & ? & ? & ?); subst
    | H : Matches (Lit _) _ _ _ _ |- _ => inversion H; subst; clear H
    | H : Matches (Seq _ _) _ _ _ _ |- _ => inversion H; subst; clear H
    | H : Matches (Group _) _ _ _ _ |- _ => inversion H; subst; clear H
    | H : Matches WordB _ _ _ _ |- _ => inversion H; subst; clear H
    | H : Matches (Times (S _) _) _ _ _ _ |- _ => inversion H; subst; clear H
    | H : Matches (Times 0 _) _ _ _ _ |- _ => inversion H; subst; clear H
    end.

(** The address pattern matches four octets separated by dots, with no word
    character before the first and none after the last. *)
Lemma ip_sound (p : option ascii) (s : text) (p' : option ascii)
  (rest : text) :
  Matches ip_address_pattern p s p' rest ->
  exists m,
    s = m ++ rest /\ ipv4_literal m
    /\ is_word_at p = false /\ is_word_at (head rest) = false.
Proof.
  unfold ip_address_pattern. intros Hm. invert_ip.
  match goal with
  | Hd : is_octet ?d = true,
    H1 : xorb (is_word_at ?q)
           (is_word_at (head (?a ++ _ :: ?b ++ _ :: ?c ++ _ :: ?d ++ _)))
         = true,
    Ha : is_octet ?a = true,
    H2 : xorb (is_word_at (last_of ?l ?d)) _ = true |- _ =>
      exists (a ++ str "." ++ b ++ str "." ++ c ++ str "." ++ d);
      rewrite (octet_first a _ Ha) in H1;
      rewrite (octet_last l d Hd) in H2;
      split; [|split; [exists a, b, c, d; auto|]]
  end.
  - repeat (rewrite <- app_assoc; simpl). reflexivity.
  - split.
    + destruct (is_word_at p1); [discriminate|reflexivity].
    + destruct (is_word_at (head rest)); [discriminate|reflexivity].
Qed.

Lemma ipv4_literal_nonempty (m : text) : ipv4_literal m -> m <> [].
Proof.
  intros (a & b & c & d & -> & Ha & _).
  destruct (is_octet_digits _ Ha) as [Hne _].
  destruct a; [congruence|discriminate].
Qed.

Lemma M_octet_dot (d : text) (p : option ascii) (t : text) :
  is_octet d = true ->
  Matches (Group (Seq (Group octet_pattern) (Lit ".")))
    p (d ++ "."%char :: t) (Some "."%char) t.
Proof.
  intros Hd. constructor. eapply M_seq; [|constructor].
  constructor. apply octet_complete, Hd.
Qed.

Lemma ip_complete (p : option ascii) (m rest : text) :
  ipv4_literal m ->
  is_word_at p = false -> is_word_at (head rest) = false ->
  exists p', Matches ip_address_pattern p (m ++ rest) p' rest.
Proof.
  intros (a & b & c & d & -> & Ha & Hb & Hc & Hd) Hp Hr.
  exists (last_of (Some "."%char) d). unfold ip_address_pattern.
  repeat (rewrite <- app_assoc; simpl).
  eapply M_seq.
  { constructor. rewrite Hp, (octet_first a _ Ha). reflexivity. }
  eapply M_seq.
  { eapply M_times_S; [apply M_octet_dot, Ha|].
    eapply M_times_S; [apply M_octet_dot, Hb|].
    eapply M_times_S; [apply M_octet_dot, Hc|]. apply M_times_0. }
  eapply M_seq.
  { constructor. apply octet_complete, Hd. }
  constructor. rewrite Hr, (octet_last _ d Hd). reflexivity.
Qed.

(** A match of the address pattern consumes at least one character. *)
Lemma ip_match_consumes (p : option ascii) (s : text) (p' : option ascii)
  (rest : text) :
  match_here ip_address_pattern p s = Some (p', rest) ->
  length rest < length s.
Proof.
  intros Hm. apply match_here_sound, ip_sound in Hm
    as (m & -> & Hlit & _).
  apply ipv4_literal_nonempty in Hlit. rewrite length_app.
  destruct m; [congruence|simpl; lia].
Qed.

(** ** What the hostname pattern matches *)

Lemma set_plus_run (items : list (ascii * ascii)) (r : regex)
  (p : option ascii) (s : text) (p' : option ascii) (s' : text) :
  Matches r p s p' s' -> r = SetPlus items ->
  exists run, s = run ++ s' /\ run <> []
              /\ forallb (in_set items) run = true.
Proof.
  induction 1 as [| | | | | | | | |its x p t Hx|its x p t p' t' Hx _ IH| |];
    intros E; try discriminate; injection E as ->.
  - exists [x]. simpl. rewrite Hx. auto.
  - destruct (IH eq_refl) as (run & -> & _ & Hrun).
    exists (x :: run). simpl. rewrite Hx, Hrun. auto.
Qed.

Lemma host_sound (p : option ascii) (s : text) (p' : option ascii)
  (rest : text) :
  Matches hostname_pattern p s p' rest ->
  exists m, s = m ++ rest /\ host_token m.
Proof.
  unfold hostname_pattern. intros Hm.
  inversion Hm as [| |r1 r2 p0 s0 p1 s1 p2 s2 Hopen Hrest| | | | | | | | | |];
    subst; clear Hm.
  inversion Hrest as [| |r1 r2 p0 s0 p3 s3 p4 s4 Hrun Hclose| | | | | | | | | |];
    subst; clear Hrest.
  inversion Hrun; subst.
  match goal with H : Matches (SetPlus _) _ _ _ _ |- _ =>
    destruct (set_plus_run _ _ _ _ _ _ H eq_refl) as (run & -> & Hne & Hrun')
  end.
  assert (Hopen' : exists opening, s = opening ++ run ++ s3
                   /\ (opening = [] \/ opening = str "[")).
  { inversion Hopen; subst.
    - match goal with H : Matches (Lit _) _ _ _ _ |- _ =>
        inversion H; subst end.
      exists (str "["). auto.
    - exists []. auto. }
  assert (Hclose' : exists closing, s3 = closing ++ rest
                   /\ (closing = [] \/ closing = str "]")).
  { inversion Hclose; subst.
    - match goal with H : Matches (Lit _) _ _ _ _ |- _ =>
        inversion H; subst end.
      exists (str "]"). auto.
    - exists []. auto. }
  destruct Hopen' as (opening & -> & Ho), Hclose' as (closing & -> & Hc).
  exists (opening ++ run ++ closing). split.
  - rewrite <- !app_assoc. reflexivity.
  - exists opening, run, closing. auto.
Qed.

Lemma host_token_nonempty (m : text) : host_token m -> m <> [].
Proof.
  intros (o & run & c & -> & Hne & _) E.
  apply app_eq_nil in E as [_ E]. apply app_eq_nil in E as [E _].
  contradiction.
Qed.

(** A match of the hostname pattern consumes at least one character. *)
Lemma host_match_consumes (p : option ascii) (s : text) (p' : option ascii)
  (rest : text) :
  match_here hostname_pattern p s = Some (p', rest) ->
  length rest < length s.
Proof.
  intros Hm. apply match_here_sound, host_sound in Hm as (m & -> & Htok).
  apply host_token_nonempty in Htok. rewrite length_app.
  destruct m; [congruence|simpl; lia].
Qed.

Lemma host_char_matches (p : option ascii) (c : ascii) (s : text) :
  is_host_char c = true ->
  Matches hostname_pattern p (c :: s) (Some c) s.
Proof.
  intros Hc. unfold hostname_pattern.
  eapply M_seq; [apply M_opt_none|].
  eapply M_seq; [constructor; apply M_plus_1, Hc|apply M_opt_none].
Qed.

(** ** The two passes over a Received line *)

Lemma last_of_None (m : text) : last_of None m = last m.
Proof. unfold last_of. destruct (last m); reflexivity. Qed.

Lemma covered_cons (p : piece) (ps : list piece) (n : nat) :
  covered ps n -> covered (p :: ps) (length (original p) + n).
Proof.
  intros (before & m & after & -> & Hn).
  exists (p :: before), m, after. split; [reflexivity|].
  unfold originals in *. simpl. rewrite length_app. lia.
Qed.

(** Every match of the address pattern in the line is a match of the
    scan, or begins inside one. *)
Lemma ip_occurrences_covered (prev : option ascii) (s : text)
  (pieces : list piece) :
  Scanned ip_address_pattern prev s pieces ->
  forall pre m post,
    s = pre ++ m ++ post ->
    ipv4_literal m ->
    is_word_at (last_of prev pre) = false ->
    is_word_at (head post) = false ->
    covered pieces (length pre).
Proof.
  induction 1 as [prev|prev c s ps Hk Hs IH|prev m0 rest ps Hne Hm Hs IH];
    intros pre m post Heq Hlit Hb Ha.
  - apply ipv4_literal_nonempty in Hlit.
    symmetry in Heq. apply app_eq_nil in Heq as [_ Heq].
    apply app_eq_nil in Heq as [Heq _]. contradiction.
  - destruct pre as [|x pre].
    + simpl in Heq, Hb.
      destruct (ip_complete prev m post Hlit Hb Ha) as [p' Hmatch].
      rewrite <- Heq in Hmatch.
      destruct (match_here_complete _ _ _ _ _ Hmatch) as [[q t] Hq].
      pose proof (Hk _ _ Hq) as Hlen.
      apply ip_match_consumes in Hq. simpl in Hq. lia.
    + injection Heq as -> Heq.
      rewrite last_of_cons in Hb.
      apply (covered_cons (Keep x)), (IH _ _ _ Heq Hlit Hb Ha).
  - apply app_eq_inv in Heq as [(k & -> & Hk) | (k & -> & Hk)].
    + destruct k as [|y k].
      * rewrite app_nil_r in *. simpl in Hk. subst rest.
        rewrite <- (Nat.add_0_r (length pre)).
        replace (length pre + 0) with (length (original (Hit pre)) + 0)
          by reflexivity.
        apply (covered_cons (Hit pre)).
        apply (IH [] m post eq_refl Hlit); [|exact Ha].
        simpl. exact Hb.
      * exists [], (pre ++ y :: k), ps. split; [reflexivity|].
        unfold originals. simpl. rewrite length_app. simpl. lia.
    + rewrite last_of_app in Hb. rewrite length_app.
      apply (covered_cons (Hit m0)), (IH _ _ _ Hk Hlit Hb Ha).
Qed.

Lemma ip_hits_are_literals (header : text) (before : list piece) (m : text)
  (after : list piece) :
  finditer ip_address_pattern header = before ++ Hit m :: after ->
  ipv4_literal m /\ word_bounded (originals before) (originals after).
Proof.
  intros Hp.
  destruct (Scanned_hit _ _ _ _ (finditer_Scanned ip_address_pattern header)
              _ _ _ Hp) as [_ Hm].
  apply ip_sound in Hm as (m' & Heq & Hlit & Hb & Ha).
  apply app_inv_tail in Heq. subst m'.
  rewrite last_of_None in Hb. split; [exact Hlit|]. split; assumption.
Qed.

Lemma host_hits_are_tokens (s : text) (before : list piece) (m : text)
  (after : list piece) :
  finditer hostname_pattern s = before ++ Hit m :: after -> host_token m.
Proof.
  intros Hp.
  destruct (Scanned_hit _ _ _ _ (finditer_Scanned hostname_pattern s)
              _ _ _ Hp) as [_ Hm].
  apply host_sound in Hm as (m' & Heq & Htok).
  apply app_inv_tail in Heq. subst m'. exact Htok.
Qed.

Lemma host_keeps_no_host_char (s : text) (before : list piece) (c : ascii)
  (after : list piece) :
  finditer hostname_pattern s = before ++ Keep c :: after ->
  is_host_char c = false.
Proof.
  intros Hp. destruct (is_host_char c) eqn:Hc; [|reflexivity].
  pose proof (Scanned_keep _ _ _ _ (finditer_Scanned hostname_pattern s)
                _ _ _ Hp) as Hk.
  pose proof (host_char_matches (last_of None (originals before)) c
                (originals after) Hc) as Hm.
  destruct (match_here_complete _ _ _ _ _ Hm) as [[q t] Hq].
  pose proof (Hk _ _ Hq) as Hlen.
  apply host_match_consumes in Hq. simpl in Hq. lia.
Qed.

Lemma finditer_originals (r : regex) (s : text) :
  originals (finditer r s) = s.
Proof. apply (Scanned_originals r None), finditer_Scanned. Qed.

(** The substitution of [re.sub]: the output has the replacement in the
    place of every match and the other characters where they were; there is
    one such output. *)
Lemma Substituted_re_sub (r : regex) (v s : text) :
  Substituted v (finditer r s) (re_sub r v s).
Proof.
  unfold re_sub. induction (finditer r s) as [|[c|m] ps IH]; simpl.
  - constructor.
  - constructor. exact IH.
  - constructor. exact IH.
Qed.

Lemma Substituted_functional (v : text) (ps : list piece) (out out' : text) :
  Substituted v ps out -> Substituted v ps out' -> out = out'.
Proof.
  intros S1. revert out'.
  induction S1 as [|c ps out _ IH|m ps out _ IH]; intros out' S2;
    inversion S2; subst; try reflexivity; f_equal; apply IH; assumption.
Qed.

Section PassFacts.
Context {G : Type} `{Faker G}.

Lemma ipv4_pass_unfold (header : text) (fake : G) :
  ipv4_pass header fake
  = (flat_map (render (fst (fake_ipv4 fake)))
       (finditer ip_address_pattern header),
     snd (fake_ipv4 fake)).
Proof. unfold ipv4_pass, re_sub. destruct (fake_ipv4 fake). reflexivity. Qed.

Lemma hostname_pass_unfold (header : text) (fake : G) :
  hostname_pass header fake
  = (flat_map (render (fst (fake_domain_name fake)))
       (finditer hostname_pattern header),
     snd (fake_domain_name fake)).
Proof.
  unfold hostname_pass, re_sub. destruct (fake_domain_name fake).
  reflexivity.
Qed.

Lemma ipv4_pass_Substituted (header : text) (fake : G) :
  Substituted (fst (fake_ipv4 fake)) (finditer ip_address_pattern header)
    (fst (ipv4_pass header fake))
  /\ snd (ipv4_pass header fake) = snd (fake_ipv4 fake).
Proof.
  unfold ipv4_pass. destruct (fake_ipv4 fake) as [ip g]. simpl.
  split; [apply Substituted_re_sub|reflexivity].
Qed.

Lemma hostname_pass_Substituted (header : text) (fake : G) :
  Substituted (fst (fake_domain_name fake)) (finditer hostname_pattern header)
    (fst (hostname_pass header fake))
  /\ snd (hostname_pass header fake) = snd (fake_domain_name fake).
Proof.
  unfold hostname_pass. destruct (fake_domain_name fake) as [d g]. simpl.
  split; [apply Substituted_re_sub|reflexivity].
Qed.

End PassFacts.

Section Claims_obfuscation.
Context {G : Type} `{Faker G}.

(** C2, as the code has it: the IPv4 pass over a Received line draws one
    address from the provider, once, and its output is the line with that
    one value in the place of every match of the strict grammar and every
    other character where it was: the matches are found from left to right
    without overlap; each is four groups of one to three digits that denote
    at most 255, separated by dots, with no word character next to it; and
    every such text of the line is a match or begins inside one. *)
Theorem C2_ipv4_pass_one_value (header : text) (fake : G) :
  let pieces := finditer ip_address_pattern header in
  let value := fst (fake_ipv4 fake) in
  originals pieces = header
  /\ Substituted value pieces (fst (ipv4_pass header fake))
  /\ snd (ipv4_pass header fake) = snd (fake_ipv4 fake)
  /\ (forall before m after,
        pieces = before ++ Hit m :: after ->
        ipv4_literal m
        /\ word_bounded (originals before) (originals after))
  /\ (forall pre m post,
        header = pre ++ m ++ post ->
        ipv4_literal m -> word_bounded pre post ->
        covered pieces (length pre)).
Proof.
  intros pieces value. split; [apply finditer_originals|].
  split; [apply ipv4_pass_Substituted|].
  split; [apply ipv4_pass_Substituted|].
  split; [intros before m after; apply ip_hits_are_literals|].
  intros pre m post Heq Hlit [Hb Ha].
  apply (ip_occurrences_covered None header pieces
           (finditer_Scanned _ _) pre m post Heq Hlit); [|exact Ha].
  rewrite last_of_None. exact Hb.
Qed.
End Claims_obfuscation.

(** ** Received headers in the output *)

Lemma startswith_lower (p s : text) :
  startswith p s = true -> startswith (lower p) (lower s) = true.
Proof.
  intros Hs. apply startswith_inv in Hs as [t ->].
  rewrite lower_app. apply startswith_app.
Qed.

Section ReceivedFacts.
Context {G : Type} `{Faker G}.

(** Without [obfuscate_received] no line of the output begins with
    [Received:]. *)
Lemma rewrite_header_no_received (kx : bool) (header : text) (fake : G)
  (line : text) :
  fst (rewrite_header kx false header fake) = Some line ->
  startswith (str "Received:") line = false.
Proof.
  unfold rewrite_header.
  destruct (startswith (str "received:") (lower header)) eqn:E1;
    [discriminate|].
  assert (Hh : startswith (str "Received:") header = false).
  { destruct (startswith (str "Received:") header) eqn:E; [|reflexivity].
    apply startswith_lower in E.
    change (lower (str "Received:")) with (str "received:") in E.
    congruence. }
  repeat match goal with
    | |- context [if ?b then _ else _] => destruct b
    | |- context [let '(_, _) := ?x in _] => destruct x
    end; simpl; intros [= <-]; first [exact Hh | reflexivity].
Qed.

Lemma received_dropped_by_default (kx : bool) (headers : list text)
  (fake : G) :
  count_received (fst (rewrite_headers kx false headers fake)) = 0.
Proof.
  revert fake. induction headers as [|h hs IH]; intros fake; [reflexivity|].
  cbn [rewrite_headers].
  pose proof (rewrite_header_no_received kx h fake) as Hh.
  destruct (rewrite_header kx false h fake) as [o f1].
  specialize (IH f1). destruct (rewrite_headers kx false hs f1) as [os f2].
  cbn [fst] in *. destruct o as [line|]; [|exact IH].
  unfold count_received in *. rewrite filter_cons.
  destruct (decide (startswith (str "Received:") line = true)) as [E|_];
    [|exact IH].
  rewrite (Hh line eq_refl) in E. discriminate.
Qed.
End ReceivedFacts.

(** *** The name of an obfuscated Received header *)

Lemma Scanned_cons_inv (r : regex) (prev : option ascii) (c : ascii)
  (s : text) (pieces : list piece) :
  Scanned r prev (c :: s) pieces ->
  (exists ps, pieces = Keep c :: ps /\ Scanned r (Some c) s ps)
  \/ (exists m rest ps,
        c :: s = m ++ rest /\ m <> []
        /\ match_here r prev (c :: s) = Some (last_of prev m, rest)
        /\ pieces = Hit m :: ps /\ Scanned r (last_of prev m) rest ps).
Proof.
  intros Hs. remember (c :: s) as l eqn:El.
  destruct Hs as [p|p c0 s0 ps Hk Hrest|p m rest ps Hne Hm Hrest].
  - discriminate.
  - injection El as -> ->. left. exists ps. auto.
  - right. exists m, rest, ps. auto.
Qed.

Lemma ipv4_literal_first (m : text) :
  ipv4_literal m -> exists c t, m = c :: t /\ is_digit c = true.
Proof.
  intros (a & b & c & d & -> & Ha & _).
  destruct (is_octet_digits _ Ha) as [Hne Hdig].
  destruct a as [|x a]; [congruence|]. simpl in Hdig.
  apply andb_true_iff in Hdig as [Hx _]. exists x. eauto.
Qed.

(** The address pass keeps a text without digits at the start of the
    line. *)
Lemma ip_scan_skips (pfx : text) :
  forall (prev : option ascii) (rest : text) (pieces : list piece),
    forallb (fun c => negb (is_digit c)) pfx = true ->
    Scanned ip_address_pattern prev (pfx ++ rest) pieces ->
    exists ps,
      pieces = map Keep pfx ++ ps
      /\ Scanned ip_address_pattern (last_of prev pfx) rest ps.
Proof.
  induction pfx as [|c pfx IH]; intros prev rest pieces Hnd Hs.
  - exists pieces. auto.
  - simpl in Hnd. apply andb_true_iff in Hnd as [Hc Hnd].
    apply negb_true_iff in Hc. simpl in Hs.
    apply Scanned_cons_inv in Hs
      as [(ps & -> & Hs) | (m & t & ps & Heq & _ & Hm & _)].
    + destruct (IH _ _ _ Hnd Hs) as (ps' & -> & Hs').
      exists ps'. rewrite last_of_cons. auto.
    + apply match_here_sound, ip_sound in Hm as (m' & Heq' & Hlit & _).
      apply ipv4_literal_first in Hlit as (x & u & -> & Hx).
      injection Heq' as -> _. congruence.
Qed.

(** A greedy run stops where the set stops, when the rest of the pattern
    goes through there. *)
Lemma set_plus_maximal (cls : ascii -> bool) (k : cont) (run : text) :
  forall (rest : text) (res : option ascii * text),
    run <> [] -> forallb cls run = true ->
    (forall c t, rest = c :: t -> cls c = false) ->
    k (last run) rest = Some res ->
    set_plus cls (run ++ rest) k = Some res.
Proof.
  induction run as [|c run IH]; intros rest res Hne Hrun Hrest Hk;
    [congruence|].
  simpl in Hrun. apply andb_true_iff in Hrun as [Hc Hrun].
  simpl. rewrite Hc. destruct run as [|c' run].
  - simpl. simpl in Hk.
    destruct rest as [|x t]; simpl; [exact Hk|].
    rewrite (Hrest x t eq_refl). exact Hk.
  - rewrite (IH rest res); auto; discriminate.
Qed.

Lemma host_match_name (p : option ascii) (run : text) (t : text) :
  run <> [] -> forallb is_host_char run = true ->
  match_here hostname_pattern p (run ++ colon :: t)
  = Some (last run, colon :: t).
Proof.
  intros Hne Hrun. unfold match_here, hostname_pattern.
  cbn [backtrack].
  destruct run as [|c run]; [congruence|].
  assert (Hc : Ascii.eqb c "[" = false).
  { simpl in Hrun. apply andb_true_iff in Hrun as [Hc _].
    destruct (Ascii.eqb c "[") eqn:E; [|reflexivity].
    apply Ascii.eqb_eq in E. subst c. discriminate. }
  cbn [app]. rewrite Hc.
  change (c :: run ++ colon :: t) with ((c :: run) ++ colon :: t).
  apply set_plus_maximal; auto.
  intros x u [= <- <-]. reflexivity.
Qed.

Lemma lower_cons_inv (s : text) (a : ascii) (b : text) :
  lower s = a :: b ->
  exists c s', s = c :: s' /\ lower_char c = a /\ lower s' = b.
Proof.
  destruct s as [|c s']; [discriminate|]. intros [= Ha Hb]. eauto.
Qed.

Lemma letter_facts (c : ascii) :
  in_range "a" "z" (lower_char c) = true ->
  is_host_char c = true /\ is_digit c = false.
Proof. each_ascii c; vm_compute; intros; try discriminate; auto. Qed.

Lemma colon_fact (c : ascii) : lower_char c = colon -> c = colon.
Proof.
  intros Hc. pose proof (lower_char_colon c) as E. rewrite Hc in E.
  rewrite Ascii.eqb_refl in E. symmetry in E. apply Ascii.eqb_eq in E.
  exact E.
Qed.

(** A line the loop takes for a Received header is a name of eight letters
    and a colon, then the rest. *)
Lemma received_prefix (header : text) :
  startswith (str "received:") (lower header) = true ->
  exists name rest,
    header = name ++ colon :: rest
    /\ name <> []
    /\ forallb is_host_char name = true
    /\ forallb (fun c => negb (is_digit c)) (name ++ [colon]) = true.
Proof.
  intros Hs. apply startswith_inv in Hs as [t Ht].
  change (str "received:" ++ t)
    with ("r" :: "e" :: "c" :: "e" :: "i" :: "v" :: "e" :: "d" :: colon :: t)%char
    in Ht.
  repeat match goal with
    | H : lower _ = _ :: _ |- _ =>
        apply lower_cons_inv in H;
        let c := fresh "c" in let E := fresh "E" in
        destruct H as (c & ? & -> & E & H)
    end.
  match goal with E : lower_char ?c = colon |- _ =>
    apply colon_fact in E; subst c end.
  repeat match goal with
    | E : lower_char ?c = _ |- _ =>
        let F := fresh "F" in
        assert (F : is_host_char c = true /\ is_digit c = false)
          by (apply letter_facts; rewrite E; reflexivity);
        clear E; destruct F
    end.
  eexists [_; _; _; _; _; _; _; _], _. split; [reflexivity|].
  split; [discriminate|]. simpl.
  repeat match goal with H : _ = _ |- _ => rewrite H end.
  split; reflexivity.
Qed.

Section ObfuscatedName.
Context {G : Type} `{Faker G}.

(** With [obfuscate_received], the output line of every Received header
    begins with the domain name the provider gave for that line, then the
    colon: the name of the field is replaced like a hostname. *)
Lemma obfuscated_received_name (kx : bool) (header : text) (fake : G) :
  startswith (str "received:") (lower header) = true ->
  exists rest,
    fst (rewrite_header kx true header fake)
    = Some (fst (fake_domain_name (snd (fake_ipv4 fake))) ++ colon :: rest).
Proof.
  intros Hr. unfold rewrite_header. rewrite Hr.
  unfold obfuscate. rewrite ipv4_pass_unfold, hostname_pass_unfold. simpl.
  destruct (received_prefix _ Hr) as (name & rest & -> & Hne & Hhost & Hnd).
  (* the first pass keeps the name and the colon *)
  pose proof (finditer_Scanned ip_address_pattern (name ++ colon :: rest))
    as Hs1.
  change (name ++ colon :: rest) with (name ++ [colon] ++ rest) in Hs1.
  rewrite app_assoc in Hs1.
  destruct (ip_scan_skips _ _ _ _ Hnd Hs1) as (ps1 & E1 & _).
  change (name ++ colon :: rest) with (name ++ [colon] ++ rest).
  rewrite app_assoc, E1. rewrite flat_map_app.
  assert (Ek : forall (v : text) (l : text),
             flat_map (render v) (map Keep l) = l).
  { intros v l. induction l as [|x l IH]; simpl; [|rewrite IH]; reflexivity. }
  rewrite Ek, <- app_assoc. cbn [app].
  set (line1 := flat_map (render (fake_ipv4 fake).1) ps1).
  (* the second pass replaces the name and keeps the colon *)
  pose proof (finditer_Scanned hostname_pattern (name ++ colon :: line1))
    as Hs2.
  destruct name as [|c name]; [congruence|].
  cbn [app] in Hs2 |- *.
  apply Scanned_cons_inv in Hs2
    as [(ps & E2 & _) | (m & t & ps & Heq & _ & Hm & E2 & Hs2)].
  - pose proof (host_keeps_no_host_char _ [] c ps E2) as Hc.
    simpl in Hhost. apply andb_true_iff in Hhost as [Hc' _]. congruence.
  - change (c :: name ++ colon :: line1)
      with ((c :: name) ++ colon :: line1) in Hm.
    rewrite (host_match_name None (c :: name) line1 Hne Hhost) in Hm.
    injection Hm as _ <-.
    apply Scanned_cons_inv in Hs2
      as [(ps' & -> & _) | (m' & t' & ps' & _ & _ & Hm' & _)];
      [|discriminate].
    rewrite E2. simpl. eexists. reflexivity.
Qed.
End ObfuscatedName.

(** ** The claims on concrete messages *)

(** C1, on the code: the line of the example, obfuscated.  Both addresses
    and all hostname-like tokens are replaced, and so are the words
    [Received], [from] and [by]: the output line does not start with
    [Received:]. *)
Theorem C1_example_line_loses_its_name :
  rewrite_header false true example_received 0
  = (Some (str "example.org: example.org example.org (example.org) example.org example.org (example.org)"), 2)
  /\ fst (ipv4_pass example_received 0)
     = str "Received: from mail.example.com (203.0.113.0) by relay.test (203.0.113.0)"
  /\ (forall line,
        fst (rewrite_header false true example_received 0) = Some line ->
        startswith (str "Received:") line = false).
Proof.
  split; [vm_compute; reflexivity|]. split; [vm_compute; reflexivity|].
  intros line Hl. vm_compute in Hl. injection Hl as <-. reflexivity.
Qed.

(** C7, on the code: with [obfuscate_received] one Received header is read
    and no output line begins with [Received:]. *)
Theorem C7_obfuscated_received_not_counted :
  let headers := [str "Received: from a.example by b.example";
                  str "Subject: hello"] in
  count_received_headers headers = 1
  /\ fst (rewrite_headers false true headers 0)
     = [str "example.org: example.org example.org example.org example.org";
        str "Subject: hello"]
  /\ count_received (fst (rewrite_headers false true headers 0)) = 0.
Proof. vm_compute. auto. Qed.

(** C2 as stated fails: with a provider whose addresses differ from call to
    call, the two addresses of a line get the same value, from one call; a
    pass with a value for each match gives two values, from two calls. *)
Lemma C2_counterexample_one_value_for_all :
  let header := str "Received: from a (192.168.1.10) by b (10.0.0.5)" in
  ipv4_pass header 0
  = (str "Received: from a (203.0.113.0) by b (203.0.113.0)", 1)
  /\ ipv4_pass_per_match header 0
     = (str "Received: from a (203.0.113.0) by b (203.0.113.1)", 2)
  /\ ipv4_pass header 0 <> ipv4_pass_per_match header 0.
Proof.
  split; [vm_compute; reflexivity|]. split; [vm_compute; reflexivity|].
  vm_compute. discriminate.
Qed.

(** C2, witness: the line of two addresses; the second address is a text
    of the strict grammar between a parenthesis and a parenthesis, so it
    lies in a match, and both matches come out as the one value. *)
Lemma C2_ipv4_pass_one_value_witness :
  let header := str "Received: from a (192.168.1.10) by b (10.0.0.5)" in
  let pieces := finditer ip_address_pattern header in
  fst (fake_ipv4 0) = str "203.0.113.0"
  /\ Substituted (str "203.0.113.0") pieces
       (str "Received: from a (203.0.113.0) by b (203.0.113.0)")
  /\ snd (ipv4_pass header 0) = 1
  /\ ipv4_literal (str "10.0.0.5")
  /\ word_bounded (str "Received: from a (192.168.1.10) by b (") (str ")")
  /\ covered pieces (length (str "Received: from a (192.168.1.10) by b ("))
  /\ (forall before m after,
        pieces = before ++ Hit m :: after -> ipv4_literal m).
Proof.
  intros header pieces.
  assert (Hlit : ipv4_literal (str "10.0.0.5")).
  { exists (str "10"), (str "0"), (str "0"), (str "5").
    repeat split; reflexivity. }
  assert (Hwb : word_bounded (str "Received: from a (192.168.1.10) by b (")
                  (str ")")) by (split; reflexivity).
  destruct (C2_ipv4_pass_one_value header 0) as (_ & S1 & E & Hhit & Hcov).
  split; [reflexivity|]. split; [exact S1|]. split; [exact E|].
  split; [exact Hlit|]. split; [exact Hwb|]. split.
  - exact (Hcov (str "Received: from a (192.168.1.10) by b (")
             (str "10.0.0.5") (str ")") eq_refl Hlit Hwb).
  - intros before m after Hp. exact (proj1 (Hhit before m after Hp)).
Defined.

(** C3 as stated fails: a header block of one header and its continuation
    line gives two records, not one. *)
Lemma C3_counterexample_continuation_is_a_record :
  let block := str "Subject: a" ++ [LF] ++ str " b" in
  headers_of block = [str "Subject: a"; str " b"]
  /\ count_non_continuation (splitlines block) = 1
  /\ length (headers_of block) <> count_non_continuation (splitlines block).
Proof.
  split; [reflexivity|]. split; [reflexivity|]. vm_compute. discriminate.
Qed.

(** C3, witness. *)
Lemma C3_every_physical_line_is_a_record_witness :
  let lines := [str "Subject: a"; str " b"; str "To: x"] in
  Forall (fun l => no_linebreak l = true) lines
  /\ last lines <> Some []
  /\ headers_of (join [LF] lines) = lines.
Proof.
  intros lines.
  assert (H1 : Forall (fun l => no_linebreak l = true) lines)
    by (repeat constructor).
  assert (H2 : last lines <> Some []) by (simpl; discriminate).
  split; [exact H1|]. split; [exact H2|].
  exact (proj1 (C3_every_physical_line_is_a_record (G := nat) false false
                  lines H1 H2)).
Defined.

(** What Latin-1 reads in text mode holds no carriage return. *)
Lemma latin1_reads_no_CR (enc : string) (raw : bytes) (content : text) :
  decode (Codec := latin1) enc raw = Some content -> ~ In CR content.
Proof. intros [= <-]. apply universal_newlines_no_CR. Qed.

(** C5 as stated fails: a form feed in the header part is a line boundary
    for line 57, and line 100 puts a line feed in its place; a form feed
    that ends the header part is dropped.  Neither text holds a carriage
    return, and no header line is rewritten or dropped. *)
Lemma C5_counterexample_line_ends_rewritten :
  let header_part := str "A: 1" ++ [ascii_of_N 12] ++ str "B: 2" in
  let content := header_part ++ [LF; LF] ++ str "body" in
  let header_part' := str "A: 1" ++ [ascii_of_N 12] in
  let content' := header_part' ++ [LF; LF] ++ str "body" in
  (~ In CR content /\ ~ In CR content')
  /\ find_header_end_marker content = Some [LF; LF]
  /\ split1 [LF; LF] content = [header_part; str "body"]
  /\ rewrite_headers false false (headers_of header_part) 0
     = ([str "A: 1"; str "B: 2"], 0)
  /\ anonymize_content false false [LF; LF] content 0
     = Some (str "A: 1" ++ [LF] ++ str "B: 2" ++ [LF; LF] ++ str "body")
  /\ anonymize_content false false [LF; LF] content 0 <> Some content
  /\ find_header_end_marker content' = Some [LF; LF]
  /\ split1 [LF; LF] content' = [header_part'; str "body"]
  /\ rewrite_headers false false (headers_of header_part') 0
     = ([str "A: 1"], 0)
  /\ anonymize_content false false [LF; LF] content' 0
     = Some (str "A: 1" ++ [LF; LF] ++ str "body")
  /\ anonymize_content false false [LF; LF] content' 0 <> Some content'.
Proof.
  intros header_part content header_part' content'.
  split.
  { split; intros Hin; vm_compute in Hin;
      repeat (destruct Hin as [Hin|Hin]; [discriminate Hin|]); exact Hin. }
  repeat split; try (vm_compute; reflexivity); vm_compute; discriminate.
Qed.

(** C5, witness: a message whose header lines end in line feeds comes out
    as it went in. *)
Lemma C5_split_assemble_witness :
  let header_part := str "Subject: hi" ++ [LF] ++ str "X-Test: 1" in
  let content := header_part ++ [LF; LF] ++ str "body" in
  find_header_end_marker content = Some [LF; LF]
  /\ split1 [LF; LF] content = [header_part; str "body"]
  /\ Forall (fun h => known_header h = false) (headers_of header_part)
  /\ lf_only header_part = true
  /\ last header_part <> Some LF
  /\ content = header_part ++ [LF; LF] ++ str "body"
  /\ anonymize_content false false [LF; LF] content 0
     = Some (join [LF] (headers_of header_part) ++ [LF; LF] ++ str "body")
  /\ anonymize_content false false [LF; LF] content 0 = Some content.
Proof.
  intros header_part content.
  assert (H1 : find_header_end_marker content = Some [LF; LF])
    by reflexivity.
  assert (H2 : split1 [LF; LF] content = [header_part; str "body"])
    by reflexivity.
  assert (H3 : Forall (fun h => known_header h = false)
                 (headers_of header_part)) by (repeat constructor).
  assert (H4 : lf_only header_part = true) by reflexivity.
  destruct (C5_split_assemble false false content [LF; LF] header_part
              (str "body") 0 H1 H2 H3) as (Hc & Hout & _ & _ & Hbare).
  destruct (Hbare eq_refl) as [Hlast [_ Hid]].
  split; [exact H1|]. split; [exact H2|]. split; [exact H3|].
  split; [exact H4|]. split; [exact Hlast|]. split; [exact Hc|].
  split; [exact Hout|]. exact (Hid H4).
Defined.


(** C8, witness: an unknown header between a dropped and a rewritten one. *)
Lemma C8_unknown_header_kept_in_place_witness :
  let header_part := str "Received: x" ++ [LF] ++ str "Subject: hi" ++ [LF]
                     ++ str "To: a" in
  let content := header_part ++ [LF; LF] ++ str "body" in
  split1 [LF; LF] content = [header_part; str "body"]
  /\ headers_of header_part
     = [str "Received: x"] ++ str "Subject: hi" :: [str "To: a"]
  /\ known_header (str "Subject: hi") = false
  /\ anonymize_content false false [LF; LF] content 0
     = Some (str "Subject: hi" ++ [LF]
             ++ str "To: Jane Doe <jane@example.org>" ++ [LF; LF]
             ++ str "body").
Proof.
  intros header_part content.
  assert (H1 : split1 [LF; LF] content = [header_part; str "body"])
    by reflexivity.
  assert (H2 : headers_of header_part
               = [str "Received: x"] ++ str "Subject: hi" :: [str "To: a"])
    by reflexivity.
  assert (H3 : known_header (str "Subject: hi") = false) by reflexivity.
  split; [exact H1|]. split; [exact H2|]. split; [exact H3|].
  exact (proj1 (C8_unknown_header_kept_in_place false false [LF; LF] content
                  header_part (str "body") [str "Received: x"] [str "To: a"]
                  (str "Subject: hi") 0 H1 H2 H3)).
Defined.


(** ** Examples *)

Example splitlines_ex1 :
  splitlines (str "A: 1" ++ [CR; LF] ++ str "B: 2" ++ [LF] ++ str " c" ++ [LF])
  = [str "A: 1"; str "B: 2"; str " c"].
Proof. reflexivity. Qed.

Example split1_ex1 :
  split1 [LF; LF] (str "a" ++ [LF; LF] ++ str "b" ++ [LF; LF] ++ str "c")
  = [str "a"; str "b" ++ [LF; LF] ++ str "c"].
Proof. reflexivity. Qed.

Example re_sub_ip_ex :
  re_sub ip_address_pattern (str "X")
         (str "a 192.168.1.10, 256.1.1.1 1.2.3.4.5 x1.2.3.4 10.0.0.5")
  = str "a X, 256.1.1.1 X.5 x1.2.3.4 X".
Proof. vm_compute. reflexivity. Qed.

Example re_sub_host_ex :
  re_sub hostname_pattern (str "D") (str "from [mail.x] (a-b) [] ]c[")
  = str "D D (D) [] ]D[".
Proof. vm_compute. reflexivity. Qed.

(** The provider goes from line to line: the second Received line gets the
    address of a later call. *)
Example second_line_second_value :
  snd (rewrite_header false true (str "Received: from 10.0.0.5") 0) = 2
  /\ fst (ipv4_pass (str "Received: from 10.0.0.5") 0)
     = str "Received: from 203.0.113.0"
  /\ fst (ipv4_pass (str "Received: from 10.0.0.5") 2)
     = str "Received: from 203.0.113.2".
Proof. vm_compute. auto. Qed.

(** A folded Received header with the default options: its first line is
    dropped and its continuation line stays. *)
Example folded_received_ex :
  anonymize_content false false [LF; LF]
    (str "Received: from a" ++ [LF; ascii_of_N 9] ++ str "by b" ++ [LF]
     ++ str "Subject: s" ++ [LF; LF] ++ str "body") 0
  = Some ([ascii_of_N 9] ++ str "by b" ++ [LF] ++ str "Subject: s"
          ++ [LF; LF] ++ str "body").
Proof. vm_compute. reflexivity. Qed.

(** * Further properties of the header loop *)

Lemma has_field_startswith (k header : text) :
  colon_free (lower k) = true ->
  startswith (lower k ++ [colon]) (lower header) = has_field k header.
Proof. intros Hk. rewrite startswith_field by exact Hk. reflexivity. Qed.

Ltac by_has_field :=
  change (str "received:") with (lower (str "Received") ++ [colon]);
  change (str "x-mailer:") with (lower (str "X-Mailer") ++ [colon]);
  change (str "message-id:") with (lower (str "Message-ID") ++ [colon]);
  change (str "date:") with (lower (str "Date") ++ [colon]);
  change (str "from:") with (lower (str "From") ++ [colon]);
  change (str "to:") with (lower (str "To") ++ [colon]);
  change (str "reply-to:") with (lower (str "Reply-To") ++ [colon]);
  rewrite !has_field_startswith by reflexivity.

Lemma has_field_name (k header n : text) :
  field_name header = Some n -> lower n = lower k -> has_field k header = true.
Proof.
  intros Hf Hn. unfold has_field, text_eqb. rewrite Hf.
  apply bool_decide_eq_true_2. exact Hn.
Qed.

Lemma has_field_exclusive (k1 k2 header : text) :
  has_field k1 header = true -> lower k1 <> lower k2 ->
  has_field k2 header = false.
Proof.
  unfold has_field, text_eqb. destruct (field_name header) as [n|];
    [|discriminate].
  intros H1 Hne. apply bool_decide_eq_true_1 in H1.
  apply bool_decide_eq_false_2. congruence.
Qed.

Section Loop.
Context {G : Type} `{Faker G}.
Variables kx ob : bool.

Lemma rewrite_header_x_mailer (header : text) (fake : G) :
  has_field (str "X-Mailer") header = true ->
  rewrite_header kx ob header fake
  = (if kx then Some header else None, fake).
Proof.
  intros Hx. unfold rewrite_header. by_has_field.
  rewrite (has_field_exclusive _ (str "Received") _ Hx) by discriminate.
  rewrite Hx. destruct kx; reflexivity.
Qed.

(** X1: a line whose field name is X-Mailer, letter case apart, is copied
    to the output unchanged and in place with [keep_x_mailer], and left out
    without it; in both cases the provider is not called for it. *)
Theorem X1_x_mailer_kept_or_dropped (pre post : list text) (header : text)
  (fake : G) :
  has_field (str "X-Mailer") header = true ->
  let before := rewrite_headers kx ob pre fake in
  let after := rewrite_headers kx ob post (snd before) in
  rewrite_headers kx ob (pre ++ header :: post) fake
  = (fst before ++ (if kx then [header] else []) ++ fst after, snd after).
Proof.
  intros Hx before after. rewrite rewrite_headers_app. cbn [rewrite_headers].
  rewrite (rewrite_header_x_mailer _ _ Hx). fold before.
  fold after. destruct after as [os f]. destruct kx; reflexivity.
Qed.

(** X2: the output line for a Message-ID, Date, From, To or Reply-To header
    does not depend on the line that was read: two lines with the same field
    name, letter case apart, give the same output line and leave the
    provider in the same state. *)
Theorem X2_replaced_header_ignores_value (h1 h2 n1 n2 k : text) (fake : G) :
  In k replaced_names ->
  field_name h1 = Some n1 -> lower n1 = lower k ->
  field_name h2 = Some n2 -> lower n2 = lower k ->
  rewrite_header kx ob h1 fake = rewrite_header kx ob h2 fake.
Proof.
  intros Hk Hf1 Hn1 Hf2 Hn2. unfold rewrite_header. by_field_name.
  rewrite Hf1, Hf2, Hn1, Hn2.
  destruct Hk as [<- | [<- | [<- | [<- | [<- | []]]]]]; reflexivity.
Qed.

(** X3: a Message-ID header becomes [Message-ID: <uuid@domain>] with the
    provider's identifier and domain name, drawn in this order. *)
Theorem X3_message_id_line (header n : text) (fake : G) :
  field_name header = Some n -> lower n = lower (str "Message-ID") ->
  rewrite_header kx ob header fake
  = (Some (str "Message-ID: <" ++ fst (fake_uuid4 fake) ++ str "@"
           ++ fst (fake_domain_name (snd (fake_uuid4 fake))) ++ str ">"),
     snd (fake_domain_name (snd (fake_uuid4 fake)))).
Proof.
  intros Hf Hn. unfold rewrite_header. by_field_name. rewrite Hf, Hn.
  vm_compute text_eqb. cbv iota.
  destruct (fake_uuid4 fake) as [u f1]. simpl.
  destruct (fake_domain_name f1) as [d f2]. reflexivity.
Qed.

(** X4: a Date header becomes [Date: ] followed by the provider's
    timestamp. *)
Theorem X4_date_line (header n : text) (fake : G) :
  field_name header = Some n -> lower n = lower (str "Date") ->
  rewrite_header kx ob header fake
  = (Some (str "Date: " ++ fst (fake_date_time fake)),
     snd (fake_date_time fake)).
Proof.
  intros Hf Hn. unfold rewrite_header. by_field_name. rewrite Hf, Hn.
  vm_compute text_eqb. cbv iota.
  destruct (fake_date_time fake) as [d f1]. reflexivity.
Qed.

Lemma rewrite_header_dropped (header : text) (fake : G) :
  fst (rewrite_header kx ob header fake) = None
  <-> dropped kx ob header = true.
Proof.
  unfold rewrite_header, dropped. by_has_field.
  destruct (has_field (str "Received") header) eqn:Hr.
  - rewrite (has_field_exclusive _ (str "X-Mailer") _ Hr) by discriminate.
    destruct ob; cbn [negb andb orb].
    + destruct (obfuscate header fake). cbn [fst].
      split; intros E; discriminate E.
    + cbn [fst]. split; intros _; reflexivity.
  - cbn [andb orb]. destruct (has_field (str "X-Mailer") header).
    + destruct kx; cbn [fst negb andb]; split; intros E;
        first [discriminate E | reflexivity].
    + cbn [andb].
      repeat match goal with
        | |- context [if ?b then _ else _] => destruct b
        | |- context [let '(_, _) := ?x in _] => destruct x
        end; cbn [fst]; split; intros E; discriminate E.
Qed.

(** X5: the loop gives at most one output line for each line read, in the
    order read: the lines left out are the Received lines without
    [obfuscate_received] and the X-Mailer lines without [keep_x_mailer], and
    every other line gives exactly one output line. *)
Theorem X5_output_line_count (headers : list text) (fake : G) :
  length (fst (rewrite_headers kx ob headers fake))
  + length (filter (fun h => dropped kx ob h = true) headers)
  = length headers.
Proof.
  revert fake. induction headers as [|h hs IH]; intros fake; [reflexivity|].
  cbn [rewrite_headers]. pose proof (rewrite_header_dropped h fake) as Hd.
  destruct (rewrite_header kx ob h fake) as [o f1].
  specialize (IH f1). destruct (rewrite_headers kx ob hs f1) as [os f2].
  cbn [fst] in *. rewrite filter_cons.
  destruct o as [line|].
  - destruct (decide (dropped kx ob h = true)) as [E|_].
    + apply Hd in E. discriminate.
    + simpl. lia.
  - destruct (decide (dropped kx ob h = true)) as [_|E].
    + simpl. lia.
    + exfalso. apply E, Hd. reflexivity.
Qed.
End Loop.

(** ** The calls to the provider *)

Lemma recorded_eq {G : Type} (c : call) (f : G -> text * G) (g : G)
  (calls : list call) :
  recorded c f (g, calls) = (fst (f g), (snd (f g), calls ++ [c])).
Proof. unfold recorded. simpl. destruct (f g). reflexivity. Qed.

Ltac traced_step :=
  repeat first
    [ progress cbn [fake_uuid4 fake_domain_name fake_name fake_email
                    fake_date_time fake_ipv4 traced fst snd orb]
    | rewrite recorded_eq ].

Section Calls.
Context {G : Type} `{Faker G}.
Variables kx ob : bool.

Lemma rewrite_header_traced (header : text) (g : G) (calls : list call) :
  rewrite_header kx ob header (g, calls)
  = (fst (rewrite_header kx ob header g),
     (snd (rewrite_header kx ob header g), calls ++ calls_for ob header)).
Proof.
  unfold rewrite_header, calls_for. by_has_field.
  destruct (has_field (str "Received") header).
  { destruct ob; [|rewrite app_nil_r; reflexivity].
    unfold obfuscate. rewrite !ipv4_pass_unfold.
    cbn [fst snd]. rewrite !hostname_pass_unfold.
    cbn [fake_ipv4 fake_domain_name traced].
    repeat (rewrite recorded_eq; cbn [fst snd]).
    rewrite <- app_assoc. reflexivity. }
  destruct (has_field (str "X-Mailer") header).
  { destruct kx; rewrite app_nil_r; reflexivity. }
  destruct (has_field (str "Message-ID") header).
  { traced_step. destruct (fake_uuid4 g) as [u g1]. traced_step.
    destruct (fake_domain_name g1) as [d g2]. traced_step.
    rewrite <- app_assoc. reflexivity. }
  destruct (has_field (str "Date") header).
  { traced_step. destruct (fake_date_time g) as [d g1]. reflexivity. }
  destruct (has_field (str "From") header).
  { traced_step. destruct (fake_name g) as [n g1]. traced_step.
    destruct (fake_email g1) as [e g2]. traced_step.
    rewrite <- app_assoc. reflexivity. }
  destruct (has_field (str "To") header).
  { traced_step. destruct (fake_name g) as [n g1]. traced_step.
    destruct (fake_email g1) as [e g2]. traced_step.
    rewrite <- app_assoc. reflexivity. }
  destruct (has_field (str "Reply-To") header).
  { traced_step. destruct (fake_name g) as [n g1]. traced_step.
    destruct (fake_email g1) as [e g2]. traced_step.
    rewrite <- app_assoc. reflexivity. }
  cbn [orb]. rewrite app_nil_r. reflexivity.
Qed.

(** X6: over a whole header block the provider is called for the rewritten
    lines only, line by line in the order read: an address and a domain name
    for an obfuscated Received line, an identifier and a domain name for a
    Message-ID, a timestamp for a Date, a name and an address for From, To
    and Reply-To; lines that are kept or left out make no call.  Recording
    the calls changes neither the output nor the provider. *)
Theorem X6_provider_calls (headers : list text) (g : G) (calls : list call) :
  rewrite_headers kx ob headers (g, calls)
  = (fst (rewrite_headers kx ob headers g),
     (snd (rewrite_headers kx ob headers g),
      calls ++ flat_map (calls_for ob) headers)).
Proof.
  revert g calls. induction headers as [|h hs IH]; intros g calls.
  - simpl. rewrite app_nil_r. reflexivity.
  - cbn [rewrite_headers flat_map]. rewrite rewrite_header_traced.
    destruct (rewrite_header kx ob h g) as [o g1]. cbn [fst snd].
    rewrite IH. destruct (rewrite_headers kx ob hs g1) as [os g2].
    cbn [fst snd]. rewrite <- app_assoc. reflexivity.
Qed.
End Calls.

(** ** Names that leave the output *)

Section Names.
Context {G : Type} `{Faker G}.

Lemma rewrite_header_no_received_name (kx : bool) (header : text) (fake : G)
  (line : text) :
  fst (rewrite_header kx false header fake) = Some line ->
  startswith (str "received:") (lower line) = false.
Proof.
  unfold rewrite_header.
  destruct (startswith (str "received:") (lower header)) eqn:E1;
    [discriminate|].
  repeat match goal with
    | |- context [if ?b then _ else _] => destruct b
    | |- context [let '(_, _) := ?x in _] => destruct x
    end; cbn [fst]; intros [= <-]; first [exact E1 | reflexivity].
Qed.

(** X7: without [obfuscate_received] no output line has the field name
    Received, in any letter case. *)
Theorem X7_no_received_line_by_default (kx : bool) (headers : list text)
  (fake : G) :
  Forall (fun line => startswith (str "received:") (lower line) = false)
    (fst (rewrite_headers kx false headers fake)).
Proof.
  revert fake. induction headers as [|h hs IH]; intros fake; [constructor|].
  cbn [rewrite_headers].
  pose proof (rewrite_header_no_received_name kx h fake) as Hh.
  destruct (rewrite_header kx false h fake) as [o f1].
  specialize (IH f1). destruct (rewrite_headers kx false hs f1) as [os f2].
  cbn [fst] in *. destruct o as [line|]; [|exact IH].
  constructor; [apply Hh; reflexivity|exact IH].
Qed.

Lemma rewrite_header_no_x_mailer_name (header : text) (fake : G)
  (line : text) :
  fst (rewrite_header false false header fake) = Some line ->
  startswith (str "x-mailer:") (lower line) = false.
Proof.
  unfold rewrite_header.
  destruct (startswith (str "received:") (lower header)) eqn:E1;
    [discriminate|].
  destruct (startswith (str "x-mailer:") (lower header)) eqn:E2;
    [discriminate|].
  repeat match goal with
    | |- context [if ?b then _ else _] => destruct b
    | |- context [let '(_, _) := ?x in _] => destruct x
    end; cbn [fst]; intros [= <-]; first [exact E2 | reflexivity].
Qed.

(** X9: with neither option no output line has the field name X-Mailer, in
    any letter case. *)
Theorem X9_no_x_mailer_line_by_default (headers : list text) (fake : G) :
  Forall (fun line => startswith (str "x-mailer:") (lower line) = false)
    (fst (rewrite_headers false false headers fake)).
Proof.
  revert fake. induction headers as [|h hs IH]; intros fake; [constructor|].
  cbn [rewrite_headers].
  pose proof (rewrite_header_no_x_mailer_name h fake) as Hh.
  destruct (rewrite_header false false h fake) as [o f1].
  specialize (IH f1). destruct (rewrite_headers false false hs f1) as [os f2].
  cbn [fst] in *. destruct o as [line|]; [|exact IH].
  constructor; [apply Hh; reflexivity|exact IH].
Qed.

(** X8: with [obfuscate_received] the output line of a Received header
    begins with the domain name the provider gave for the line, and the
    colon: its field name is replaced like a hostname, and the line begins
    with [Received:] only if that domain name begins with R. *)
Theorem X8_obfuscated_received_begins_with_domain (kx : bool) (header : text)
  (fake : G) :
  startswith (str "received:") (lower header) = true ->
  let domain := fst (fake_domain_name (snd (fake_ipv4 fake))) in
  exists rest,
    fst (rewrite_header kx true header fake) = Some (domain ++ colon :: rest)
    /\ (head domain <> Some "R"%char ->
        startswith (str "Received:") (domain ++ colon :: rest) = false).
Proof.
  intros Hr domain.
  destruct (obfuscated_received_name kx header fake Hr) as [rest E].
  exists rest. split; [exact E|]. intros Hd.
  destruct domain as [|a d]; [reflexivity|].
  cbn [app]. change (str "Received:") with ("R"%char :: str "eceived:").
  cbn [startswith]. destruct (Ascii.eqb "R" a) eqn:Ea; [|reflexivity].
  apply Ascii.eqb_eq in Ea. subst a. exfalso. apply Hd. reflexivity.
Qed.
End Names.

(** * Further properties of splitting and joining *)

Lemma marker_found (content marker : text) :
  find_header_end_marker content = Some marker ->
  marker = [LF; LF] \/ marker = [CR; LF; CR; LF].
Proof.
  intros Hm. destruct (find_header_end_marker_cases _ _ Hm)
    as [[-> _] | (-> & _)]; auto.
Qed.

Lemma find_header_end_marker_some (content : text) :
  contains [LF; LF] content = true
  \/ contains [CR; LF; CR; LF] content = true ->
  is_Some (find_header_end_marker content).
Proof.
  unfold find_header_end_marker.
  destruct (contains [LF; LF] content); simpl; [eauto|].
  intros [E|E]; [discriminate|]. rewrite E. simpl. eauto.
Qed.

Lemma no_linebreak_not_LF (c : ascii) :
  is_linebreak c = false -> Ascii.eqb LF c = false.
Proof.
  intros Hc. destruct (Ascii.eqb LF c) eqn:E; [|reflexivity].
  apply Ascii.eqb_eq in E. subst c. discriminate.
Qed.

Lemma split1_cons_other (c : ascii) (s h : text) (a : list text) :
  Ascii.eqb LF c = false ->
  split1 [LF; LF] s = h :: a ->
  split1 [LF; LF] (c :: s) = (c :: h) :: a.
Proof.
  intros Hc Hs. cbn [split1 startswith]. rewrite Hc. cbn [andb].
  rewrite Hs. reflexivity.
Qed.

Lemma split1_line (l rest h : text) (a : list text) :
  no_linebreak l = true ->
  split1 [LF; LF] rest = h :: a ->
  split1 [LF; LF] (l ++ rest) = (l ++ h) :: a.
Proof.
  intros Hl Hs. induction l as [|c l IH]; [exact Hs|].
  simpl in Hl. apply andb_true_iff in Hl as [Hc Hl].
  apply negb_true_iff in Hc. cbn [app].
  apply split1_cons_other; [apply no_linebreak_not_LF, Hc|]. apply IH, Hl.
Qed.

Lemma split1_LF_line (l rest h : text) (a : list text) :
  l <> [] -> no_linebreak l = true ->
  split1 [LF; LF] (l ++ rest) = h :: a ->
  split1 [LF; LF] (LF :: l ++ rest) = (LF :: h) :: a.
Proof.
  intros Hne Hl Hs. destruct l as [|c l]; [congruence|].
  simpl in Hl. apply andb_true_iff in Hl as [Hc _].
  apply negb_true_iff, no_linebreak_not_LF in Hc.
  cbn [app] in *. cbn [split1 startswith].
  change (Ascii.eqb LF LF) with true. rewrite Hc. cbn [andb].
  cbn [split1 startswith] in Hs. rewrite Hc in Hs. cbn [andb] in Hs.
  rewrite Hs. reflexivity.
Qed.

(** A block of non-empty lines without line boundaries, joined by line
    feeds, is cut from the body at the blank line that follows it. *)
Lemma split1_join (lines : list text) (body : text) :
  Forall (fun l => l <> [] /\ no_linebreak l = true) lines ->
  split1 [LF; LF] (join [LF] lines ++ [LF; LF] ++ body)
  = [join [LF] lines; body].
Proof.
  induction 1 as [|l ls [Hne Hl] Hls IH].
  - reflexivity.
  - destruct ls as [|l2 ls].
    + cbn [join]. rewrite (split1_line l _ [] [body] Hl); [|reflexivity].
      rewrite app_nil_r. reflexivity.
    + rewrite join_cons by discriminate. rewrite <- !app_assoc.
      apply split1_line; [exact Hl|].
      change ([LF] ++ join [LF] (l2 :: ls) ++ [LF; LF] ++ body)
        with (LF :: join [LF] (l2 :: ls) ++ [LF; LF] ++ body).
      inversion Hls as [|? ? [Hne2 Hl2] _]; subst.
      destruct ls as [|l3 ls].
      * cbn [join] in *. apply split1_LF_line; auto.
      * rewrite join_cons in * by discriminate.
        rewrite <- !app_assoc in *.
        apply split1_LF_line; auto.
Qed.

Section Pipeline.
Context {G : Type} `{Faker G}.
Variables kx ob : bool.

(** X10: the output of a run holds a separator again: a text the program
    has written is never refused for want of one. *)
Theorem X10_output_has_separator (content marker out : text) (fake : G) :
  find_header_end_marker content = Some marker ->
  anonymize_content kx ob marker content fake = Some out ->
  is_Some (find_header_end_marker out).
Proof.
  intros Hm Hout. unfold anonymize_content in Hout.
  destruct (split1 marker content) as [|h [|b [|x l]]]; try discriminate.
  destruct (rewrite_headers kx ob (headers_of h) fake) as [os f].
  injection Hout as <-. apply find_header_end_marker_some.
  destruct (marker_found _ _ Hm) as [-> | ->].
  - left. apply contains_intro.
  - right. apply contains_intro.
Qed.

(** X12: a text that begins with its separator has no header line: the
    output is the text itself, whatever the options and the provider. *)
Theorem X12_empty_header_block (content marker : text) (fake : G) :
  find_header_end_marker content = Some marker ->
  startswith marker content = true ->
  anonymize_content kx ob marker content fake = Some content.
Proof.
  intros Hm Hs. unfold anonymize_content.
  assert (E : split1 marker content = [[]; drop (length marker) content]).
  { destruct content as [|c s]; cbn [split1]; rewrite Hs; reflexivity. }
  rewrite E. cbn. rewrite <- (startswith_drop _ _ Hs). reflexivity.
Qed.

(** X13: a message made of non-empty header lines without line boundaries,
    a blank line and a body is rewritten line by line: the output is the
    output lines of the loop joined by line feeds, the blank line, and the
    body as it is. *)
Theorem X13_message_of_lines (lines : list text) (body : text) (fake : G) :
  Forall (fun l => l <> [] /\ no_linebreak l = true) lines ->
  let content := join [LF] lines ++ [LF; LF] ++ body in
  find_header_end_marker content = Some [LF; LF]
  /\ anonymize_content kx ob [LF; LF] content fake
     = Some (join [LF] (fst (rewrite_headers kx ob lines fake))
             ++ [LF; LF] ++ body).
Proof.
  intros Hl content. split.
  - unfold find_header_end_marker. unfold content.
    rewrite contains_intro. reflexivity.
  - unfold anonymize_content, content. rewrite (split1_join _ _ Hl).
    assert (E : headers_of (join [LF] lines) = lines).
    { apply splitlines_join.
      - eapply Forall_impl; [exact Hl|]. intros l [_ Hn]. exact Hn.
      - intros Hlast. apply last_Some in Hlast as [l' ->].
        apply Forall_app in Hl as [_ Hl]. inversion Hl as [|? ? [Hne _] _].
        congruence. }
    rewrite E. destruct (rewrite_headers kx ob lines fake). reflexivity.
Qed.
End Pipeline.

(** X11: no header line the loop reads holds a line boundary: line feeds,
    carriage returns and the other boundaries of [splitlines] never reach the
    loop, and a line the loop copies unchanged is free of them. *)
Theorem X11_headers_have_no_line_boundary (header_part : text) :
  Forall (fun h => forallb (fun c => negb (is_linebreak c)) h = true)
    (headers_of header_part)
  /\ (forall (G : Type) (F : Faker G) (kx ob : bool) (fake : G),
        Forall (fun h => known_header h = false) (headers_of header_part) ->
        Forall (fun line => no_linebreak line = true)
          (fst (rewrite_headers kx ob (headers_of header_part) fake))).
Proof.
  split; [apply headers_of_no_linebreak|].
  intros G F kx ob fake Hun. rewrite (rewrite_headers_unknown kx ob _ _ Hun).
  apply headers_of_no_linebreak.
Qed.

(** * Further properties of the program *)

Section Runs.
Context {G : Type} `{Faker G} `{Codec}.

Lemma anonymize_content_found (kx ob : bool) (content marker : text)
  (fake : G) :
  find_header_end_marker content = Some marker ->
  is_Some (anonymize_content kx ob marker content fake).
Proof.
  intros Hm. pose proof (find_header_end_marker_occurs _ _ Hm) as Hocc.
  destruct (split1_found _ _ Hocc) as (h & b & Hs & _).
  unfold anonymize_content. rewrite Hs.
  destruct (rewrite_headers kx ob (headers_of h) fake). eauto.
Qed.

(** The ways a call of [anonymize_email_headers] ends. *)
Lemma run_cases (input output : string) (kx ob : bool) (fake : G)
  (w : World) :
  let w' := anonymize_email_headers input output kx ob fake w in
  (files w !! input = None /\ w' = log (InputNotFound input) w)
  \/ (exists raw,
        files w !! input = Some raw
        /\ let encoding := default "utf-8"%string (detect raw) in
           (decode encoding raw = None /\ w' = log ErrorOccurred w)
           \/ (exists content,
                 decode encoding raw = Some content
                 /\ ((find_header_end_marker content = None
                      /\ w' = log NoSeparator w)
                     \/ (exists marker out,
                           find_header_end_marker content = Some marker
                           /\ anonymize_content kx ob marker content fake
                              = Some out
                           /\ ((encode encoding out = None
                                /\ w' = log ErrorOccurred
                                          (write_file output [] w))
                               \/ (exists data,
                                     encode encoding out = Some data
                                     /\ w' = log (Saved output)
                                               (write_file output data
                                                  (write_file output [] w)))))))).
Proof.
  intros w'. subst w'. unfold anonymize_email_headers, try_block.
  destruct (files w !! input) as [raw|] eqn:Hf; [|left; auto].
  right. exists raw. split; [reflexivity|]. cbn zeta.
  destruct (decode (default "utf-8"%string (detect raw)) raw)
    as [content|] eqn:Hd; [|left; auto].
  right. exists content. split; [reflexivity|].
  destruct (find_header_end_marker content) as [marker|] eqn:Hm;
    [|left; auto].
  right. destruct (anonymize_content_found kx ob _ _ fake Hm) as [out Ho].
  exists marker, out. split; [reflexivity|]. split; [exact Ho|].
  rewrite Ho.
  destruct (encode (default "utf-8"%string (detect raw)) out)
    as [data|] eqn:He.
  - right. exists data. auto.
  - left. auto.
Qed.

Lemma files_log (r : log_record) (w : World) : files (log r w) = files w.
Proof. reflexivity. Qed.

Lemma logged_write (path : string) (data : bytes) (w : World) :
  logged (write_file path data w) = logged w.
Proof. reflexivity. Qed.

Lemma lookup_write_ne (path other : string) (data : bytes) (w : World) :
  other <> path -> files (write_file path data w) !! other = files w !! other.
Proof. intros Hne. unfold write_file. simpl. apply lookup_insert_ne. auto. Qed.

(** X14: a run changes no file but the output file: every other path, the
    input file included when it is another path, holds after the run what
    it held before, whether the run succeeds or fails. *)
Theorem X14_only_the_output_file_changes (args : Args) (fake : G)
  (w : World) (path : string) :
  path <> output_file args ->
  files (snd (main args fake w)) !! path = files w !! path.
Proof.
  intros Hne. unfold main.
  destruct (negb (bool_decide (is_Some _))); cbn [snd]; [reflexivity|].
  match goal with |- context [anonymize_email_headers ?i ?o ?k ?b ?f ?w0] =>
    destruct (run_cases i o k b f w0)
      as [[_ E] | (raw & _ & [[_ E] | (content & _ & [[_ E]
         | (marker & out & _ & _ & [[_ E] | (data & _ & E)])])])];
      rewrite E
  end; rewrite ?files_log, ?lookup_write_ne by exact Hne; reflexivity.
Qed.

(** X15: every run passes exactly one record to the logger, and its exit
    status is 1 when that record says the input path does not exist and 0
    in every other case, failures included. *)
Theorem X15_one_record_and_exit_status (args : Args) (fake : G) (w : World) :
  exists r,
    logged (snd (main args fake w)) = logged w ++ [r]
    /\ threshold (snd (main args fake w)) = log_level args
    /\ (fst (main args fake w) = 1 /\ r = InputMissing (input_file args)
        /\ files w !! input_file args = None
        \/ fst (main args fake w) = 0 /\ r <> InputMissing (input_file args)
           /\ is_Some (files w !! input_file args)).
Proof.
  unfold main. cbn zeta. cbn [files].
  destruct (bool_decide_reflect (is_Some (files w !! input_file args)))
    as [Hex|Hex]; cbn [negb fst snd].
  - match goal with |- context [anonymize_email_headers ?i ?o ?k ?b ?f ?w0] =>
      destruct (run_cases i o k b f w0)
        as [[_ E] | (raw & _ & [[_ E] | (content & _ & [[_ E]
           | (marker & out & _ & _ & [[_ E] | (data & _ & E)])])])];
        rewrite E
    end; eexists; (split; [reflexivity|]); (split; [reflexivity|]);
      right; (split; [reflexivity|]); (split; [discriminate|exact Hex]).
  - eexists. split; [reflexivity|]. split; [reflexivity|]. left.
    split; [reflexivity|]. split; [reflexivity|].
    destruct (files w !! input_file args) eqn:E; [|reflexivity].
    exfalso. apply Hex. eauto.
Qed.

Lemma main_saved (args : Args) (fake : G) (w : World)
  (raw : bytes) (content marker out : text) (data : bytes) :
  files w !! input_file args = Some raw ->
  decode (default "utf-8"%string (detect raw)) raw = Some content ->
  find_header_end_marker content = Some marker ->
  anonymize_content (keep_x_mailer args) (obfuscate_received args) marker
    content fake = Some out ->
  encode (default "utf-8"%string (detect raw)) out = Some data ->
  main args fake w
  = (0, log (Saved (output_file args))
          (write_file (output_file args) data
             (write_file (output_file args) []
                {| files := files w; logged := logged w;
                   threshold := log_level args |}))).
Proof.
  intros Hf Hd Hm Ho He.
  unfold main. cbn [files]. rewrite Hf.
  rewrite bool_decide_eq_true_2 by eauto. cbn [negb fst snd].
  unfold anonymize_email_headers, try_block. cbn [files]. rewrite Hf.
  rewrite Hd, Hm, Ho, He. reflexivity.
Qed.

Lemma main_not_encoded (args : Args) (fake : G) (w : World)
  (raw : bytes) (content marker out : text) :
  files w !! input_file args = Some raw ->
  decode (default "utf-8"%string (detect raw)) raw = Some content ->
  find_header_end_marker content = Some marker ->
  anonymize_content (keep_x_mailer args) (obfuscate_received args) marker
    content fake = Some out ->
  encode (default "utf-8"%string (detect raw)) out = None ->
  main args fake w
  = (0, log ErrorOccurred
          (write_file (output_file args) []
             {| files := files w; logged := logged w;
                threshold := log_level args |})).
Proof.
  intros Hf Hd Hm Ho He.
  unfold main. cbn [files]. rewrite Hf.
  rewrite bool_decide_eq_true_2 by eauto. cbn [negb fst snd].
  unfold anonymize_email_headers, try_block. cbn [files]. rewrite Hf.
  rewrite Hd, Hm, Ho, He. reflexivity.
Qed.

(** X16: when the input file exists, its text decodes and holds a
    separator, and the output text encodes, the run ends with status 0, the
    output file holds the encoded output text and nothing else changes, and
    the one record of the run is that the output was saved. *)
Theorem X16_successful_run (args : Args) (fake : G) (w : World)
  (raw : bytes) (content marker out : text) (data : bytes) :
  let encoding := default "utf-8"%string (detect raw) in
  files w !! input_file args = Some raw ->
  decode encoding raw = Some content ->
  find_header_end_marker content = Some marker ->
  anonymize_content (keep_x_mailer args) (obfuscate_received args) marker
    content fake = Some out ->
  encode encoding out = Some data ->
  fst (main args fake w) = 0
  /\ files (snd (main args fake w)) = <[output_file args := data]> (files w)
  /\ logged (snd (main args fake w))
     = logged w ++ [Saved (output_file args)].
Proof.
  intros encoding Hf Hd Hm Ho He.
  rewrite (main_saved args fake w raw content marker out data Hf Hd Hm Ho He).
  cbn. split; [reflexivity|]. split; [|reflexivity].
  apply insert_insert_eq.
Qed.

(** X17: when the output text does not encode, the output file is left
    empty, whatever it held before: it was opened for writing before the
    text was encoded.  The run records an error and ends with status 0. *)
Theorem X17_encoding_failure_empties_output (args : Args) (fake : G)
  (w : World) (raw : bytes) (content marker out : text) :
  let encoding := default "utf-8"%string (detect raw) in
  files w !! input_file args = Some raw ->
  decode encoding raw = Some content ->
  find_header_end_marker content = Some marker ->
  anonymize_content (keep_x_mailer args) (obfuscate_received args) marker
    content fake = Some out ->
  encode encoding out = None ->
  fst (main args fake w) = 0
  /\ files (snd (main args fake w)) = <[output_file args := []]> (files w)
  /\ logged (snd (main args fake w)) = logged w ++ [ErrorOccurred].
Proof.
  intros encoding Hf Hd Hm Ho He.
  rewrite (main_not_encoded args fake w raw content marker out Hf Hd Hm Ho He).
  cbn. auto.
Qed.

(** X18: a file is written only after a separator was found: if a run
    changes the files at all, the input file existed, its text decoded, and
    the text held a separator. *)
Theorem X18_no_write_without_separator (args : Args) (fake : G) (w : World) :
  files (snd (main args fake w)) <> files w ->
  exists raw content marker,
    files w !! input_file args = Some raw
    /\ decode (default "utf-8"%string (detect raw)) raw = Some content
    /\ find_header_end_marker content = Some marker.
Proof.
  unfold main.
  destruct (negb (bool_decide (is_Some _))); cbn [snd];
    [intros Hn; exfalso; apply Hn; reflexivity|].
  match goal with |- context [anonymize_email_headers ?i ?o ?k ?b ?f ?w0] =>
    destruct (run_cases i o k b f w0)
      as [[_ E] | (raw & Hraw & [[_ E] | (content & Hc & [[_ E]
         | (marker & out & Hm & _ & _)])])]
  end; try (rewrite E, files_log; intros Hn; exfalso; apply Hn; reflexivity).
  intros _. exists raw, content, marker. auto.
Qed.
End Runs.

(** * Further properties of the two substitutions *)

Lemma render_keeps (v : text) (pieces : list piece) :
  (forall before m after, pieces <> before ++ Hit m :: after) ->
  flat_map (render v) pieces = originals pieces.
Proof.
  induction pieces as [|p ps IH]; intros Hno; [reflexivity|].
  destruct p as [c|m].
  - unfold originals in *. simpl. rewrite IH; [reflexivity|].
    intros before m after E. apply (Hno (Keep c :: before) m after).
    rewrite E. reflexivity.
  - exfalso. apply (Hno [] m ps). reflexivity.
Qed.

(** X19: the address substitution changes nothing in a text that holds no
    text of the strict grammar between two characters that are not word
    characters. *)
Theorem X19_no_address_no_change (v s : text) :
  (forall pre m post,
     s = pre ++ m ++ post -> ipv4_literal m -> ~ word_bounded pre post) ->
  re_sub ip_address_pattern v s = s.
Proof.
  intros Hno. unfold re_sub.
  rewrite render_keeps; [apply finditer_originals|].
  intros before m after E.
  destruct (ip_hits_are_literals _ _ _ _ E) as [Hlit Hb].
  apply (Hno (originals before) m (originals after)); [|exact Hlit|exact Hb].
  rewrite <- (finditer_originals ip_address_pattern s) at 1.
  rewrite E, originals_app. reflexivity.
Qed.

Lemma host_token_has_host_char (m : text) :
  host_token m -> exists c, In c m /\ is_host_char c = true.
Proof.
  intros (o & run & cl & -> & Hne & Hrun & _).
  destruct run as [|c run]; [congruence|]. simpl in Hrun.
  apply andb_true_iff in Hrun as [Hc _].
  exists c. split; [|exact Hc].
  apply in_or_app. right. left. reflexivity.
Qed.

(** X20: the hostname substitution changes nothing in a text without
    letters, digits, dots and hyphens, brackets or not. *)
Theorem X20_no_host_char_no_change (d s : text) :
  forallb (fun c => negb (is_host_char c)) s = true ->
  re_sub hostname_pattern d s = s.
Proof.
  intros Hno. unfold re_sub.
  rewrite render_keeps; [apply finditer_originals|].
  intros before m after E.
  destruct (host_token_has_host_char m (host_hits_are_tokens _ _ _ _ E))
    as (c & Hin & Hc).
  assert (Hs : In c s).
  { rewrite <- (finditer_originals hostname_pattern s), E, originals_app.
    apply in_or_app. right. unfold originals. simpl.
    apply in_or_app. left. exact Hin. }
  rewrite forallb_forall in Hno. specialize (Hno c Hs).
  rewrite Hc in Hno. discriminate.
Qed.

(** ** The hostname substitution, character by character *)

Lemma span_host (s : text) :
  exists run rest,
    s = run ++ rest /\ forallb is_host_char run = true
    /\ starts_run rest = false.
Proof.
  induction s as [|c s (run & rest & -> & Hrun & Hrest)].
  - exists [], []. auto.
  - destruct (is_host_char c) eqn:Hc.
    + exists (c :: run), rest. simpl. rewrite Hc, Hrun. auto.
    + exists [], (c :: run ++ rest). simpl. auto.
Qed.

Lemma set_plus_none (cls : ascii -> bool) (s : text) (k : cont) :
  match s with c :: _ => cls c | [] => false end = false ->
  set_plus cls s k = None.
Proof. destruct s as [|c s]; simpl; [reflexivity|]. intros ->. reflexivity. Qed.

Lemma close_cont (p : option ascii) (r0 : text) :
  exists p',
    backtrack (Opt (Lit "]")) p r0 (fun q t => Some (q, t))
    = Some (p', strip_close r0).
Proof.
  destruct r0 as [|c r]; simpl; [eauto|].
  destruct (Ascii.eqb c "]"); eauto.
Qed.

Lemma host_match_run (p : option ascii) (run r0 : text) :
  run <> [] -> forallb is_host_char run = true -> starts_run r0 = false ->
  exists p',
    match_here hostname_pattern p (run ++ r0) = Some (p', strip_close r0).
Proof.
  intros Hne Hrun Hr0. unfold match_here, hostname_pattern.
  cbn [backtrack].
  destruct run as [|c run]; [congruence|].
  assert (Hc : Ascii.eqb c "[" = false).
  { simpl in Hrun. apply andb_true_iff in Hrun as [Hc _].
    destruct (Ascii.eqb c "[") eqn:E; [|reflexivity].
    apply Ascii.eqb_eq in E. subst c. discriminate. }
  cbn [app]. rewrite Hc.
  change (c :: run ++ r0) with ((c :: run) ++ r0).
  destruct (close_cont (last (c :: run)) r0) as [p' Hk].
  exists p'. apply set_plus_maximal; auto.
  intros x t ->. exact Hr0.
Qed.

Lemma host_match_bracket (p : option ascii) (run r0 : text) :
  run <> [] -> forallb is_host_char run = true -> starts_run r0 = false ->
  exists p',
    match_here hostname_pattern p ("["%char :: run ++ r0)
    = Some (p', strip_close r0).
Proof.
  intros Hne Hrun Hr0. unfold match_here, hostname_pattern.
  cbn [backtrack]. change (Ascii.eqb "[" "[") with true. cbv iota.
  destruct (close_cont (last run) r0) as [p' Hk].
  exists p'.
  rewrite (set_plus_maximal _ _ run r0 (p', strip_close r0) Hne Hrun);
    [reflexivity| |exact Hk].
  intros x t ->. exact Hr0.
Qed.

Lemma host_match_none (p : option ascii) (c : ascii) (s : text) :
  is_host_char c = false ->
  Ascii.eqb c "[" && starts_run s = false ->
  match_here hostname_pattern p (c :: s) = None.
Proof.
  intros Hc Hb. unfold match_here, hostname_pattern. cbn [backtrack].
  unfold is_host_char in Hc.
  destruct (Ascii.eqb c "[") eqn:E.
  - simpl in Hb. rewrite set_plus_none by exact Hb.
    cbn [set_plus]. rewrite Hc. reflexivity.
  - cbn [set_plus]. rewrite Hc. reflexivity.
Qed.

Section Machine.
Variable d : text.

Lemma machine_run (run t : text) :
  forallb is_host_char run = true ->
  host_machine d InRun (run ++ t) = host_machine d InRun t.
Proof.
  induction run as [|c run IH]; intros Hrun; [reflexivity|].
  simpl in Hrun. apply andb_true_iff in Hrun as [Hc Hrun].
  cbn [app host_machine]. rewrite Hc. cbn [in_run]. apply IH, Hrun.
Qed.

Lemma machine_run_start (run t : text) :
  run <> [] -> forallb is_host_char run = true ->
  host_machine d Outside (run ++ t) = d ++ host_machine d InRun t.
Proof.
  intros Hne Hrun. destruct run as [|c run]; [congruence|].
  simpl in Hrun. apply andb_true_iff in Hrun as [Hc Hrun].
  cbn [app host_machine]. rewrite Hc. cbn [in_run].
  rewrite (machine_run _ _ Hrun). reflexivity.
Qed.

Lemma machine_close (r0 : text) :
  starts_run r0 = false ->
  host_machine d InRun r0 = host_machine d Outside (strip_close r0).
Proof.
  destruct r0 as [|c r]; [reflexivity|]. cbn [starts_run]. intros Hc.
  cbn [host_machine strip_close]. rewrite Hc. cbn [in_run andb].
  destruct (Ascii.eqb c "]") eqn:E; [reflexivity|].
  cbn [host_machine]. rewrite Hc. cbn [in_run andb]. reflexivity.
Qed.

Lemma machine_Scanned (prev : option ascii) (s : text)
  (pieces : list piece) :
  Scanned hostname_pattern prev s pieces ->
  flat_map (render d) pieces = host_machine d Outside s.
Proof.
  induction 1 as [prev|prev c s ps Hk Hs IH|prev m rest ps Hne Hm Hs IH].
  - reflexivity.
  - assert (Hnone : match_here hostname_pattern prev (c :: s) = None).
    { destruct (match_here hostname_pattern prev (c :: s)) as [[q t]|] eqn:E;
        [|reflexivity].
      pose proof (Hk _ _ eq_refl) as Hlen. apply host_match_consumes in E.
      simpl in E. lia. }
    assert (Hc : is_host_char c = false).
    { destruct (is_host_char c) eqn:Hc; [|reflexivity].
      pose proof (host_char_matches prev c s Hc) as Hx.
      destruct (match_here_complete _ _ _ _ _ Hx) as [x Hx'].
      congruence. }
    assert (Hb : Ascii.eqb c "[" && starts_run s = false).
    { destruct (Ascii.eqb c "[" && starts_run s) eqn:Hb; [|reflexivity].
      apply andb_true_iff in Hb as [Hc1 Hc2].
      apply Ascii.eqb_eq in Hc1. subst c.
      destruct (span_host s) as (run & r0 & -> & Hrun & Hr0).
      destruct run as [|x run]; [simpl in Hc2; congruence|].
      assert (Hrne : x :: run <> []) by discriminate.
      destruct (host_match_bracket prev (x :: run) r0 Hrne Hrun Hr0)
        as [p' E].
      congruence. }
    cbn [flat_map render host_machine]. rewrite Hc, Hb.
    cbn [in_run andb app]. rewrite IH. reflexivity.
  - cbn [flat_map render]. rewrite IH.
    destruct (m ++ rest) as [|c s] eqn:Es.
    { apply app_eq_nil in Es as [-> _]. congruence. }
    destruct (is_host_char c) eqn:Hc.
    + destruct (span_host (c :: s)) as (run & r0 & Er & Hrun & Hr0).
      assert (Hrne : run <> []).
      { destruct run; [|discriminate]. simpl in Er. subst r0.
        simpl in Hr0. congruence. }
      destruct (host_match_run prev run r0 Hrne Hrun Hr0) as [p' E].
      rewrite <- Er, Hm in E. injection E as _ ->.
      rewrite Er, (machine_run_start _ _ Hrne Hrun), machine_close by auto.
      reflexivity.
    + destruct (Ascii.eqb c "[" && starts_run s) eqn:Hb.
      * apply andb_true_iff in Hb as [Hc1 Hc2].
        apply Ascii.eqb_eq in Hc1. subst c.
        destruct (span_host s) as (run & r0 & -> & Hrun & Hr0).
        assert (Hrne : run <> []).
        { destruct run; [|discriminate]. simpl in Hc2. congruence. }
        destruct (host_match_bracket prev run r0 Hrne Hrun Hr0) as [p' E].
        rewrite Hm in E. injection E as _ ->.
        cbn [host_machine]. rewrite Hc.
        change (Ascii.eqb "[" "[") with true.
        rewrite Hc2. cbn [in_run andb].
        rewrite (machine_run_start _ _ Hrne Hrun), machine_close by auto.
        reflexivity.
      * rewrite (host_match_none prev c s Hc Hb) in Hm. discriminate.
Qed.

Lemma re_sub_host_machine (s : text) :
  re_sub hostname_pattern d s = host_machine d Outside s.
Proof.
  unfold re_sub. apply (machine_Scanned None), finditer_Scanned.
Qed.

(** X21: the hostname substitution is one pass from left to right over the
    line: every run of letters, digits, dots and hyphens, as long as it
    goes, becomes the domain name once, together with an opening bracket
    directly before it and a closing bracket directly after it; every other
    character stays. *)
Theorem X21_hostname_substitution_in_one_pass (s : text) :
  re_sub hostname_pattern d s = host_machine d Outside s.
Proof. apply re_sub_host_machine. Qed.
End Machine.

(** ** The address substitution under the hostname substitution *)

Lemma is_digit_host (c : ascii) : is_digit c = true -> is_host_char c = true.
Proof.
  unfold is_digit, is_host_char, in_set, host_chars. simpl. intros ->.
  rewrite !orb_true_r. reflexivity.
Qed.

Lemma digits_host (a : text) :
  forallb is_digit a = true -> forallb is_host_char a = true.
Proof.
  induction a as [|c a IH]; simpl; [reflexivity|].
  rewrite !andb_true_iff. intros [Hc Ha]. split; [apply is_digit_host, Hc|].
  apply IH, Ha.
Qed.

Lemma ipv4_literal_host (m : text) :
  ipv4_literal m -> m <> [] /\ forallb is_host_char m = true.
Proof.
  intros Hlit. split; [apply ipv4_literal_nonempty, Hlit|].
  destruct Hlit as (a & b & c & e & -> & Ha & Hb & Hc & He).
  apply is_octet_digits in Ha as [_ Ha], Hb as [_ Hb], Hc as [_ Hc],
    He as [_ He].
  rewrite !forallb_app.
  rewrite (digits_host _ Ha), (digits_host _ Hb), (digits_host _ Hc),
    (digits_host _ He). reflexivity.
Qed.

Lemma ip_hits_host (s : text) : host_hits (finditer ip_address_pattern s).
Proof.
  unfold host_hits.
  assert (Hall : forall ps before,
             finditer ip_address_pattern s = before ++ ps ->
             Forall (fun p => match p with
                              | Hit m => m <> [] /\ forallb is_host_char m = true
                              | Keep _ => True
                              end) ps).
  { induction ps as [|p ps IH]; intros before E; [constructor|].
    constructor.
    - destruct p as [c|m]; [exact I|].
      apply ipv4_literal_host.
      apply (ip_hits_are_literals s before m ps E).
    - apply (IH (before ++ [p])). rewrite <- app_assoc. exact E. }
  apply (Hall _ []). reflexivity.
Qed.

Section Substituted.
Variables d v : text.
Hypothesis v_nonempty : v <> [].
Hypothesis v_host : forallb is_host_char v = true.

Lemma starts_run_app (run t : text) :
  run <> [] -> forallb is_host_char run = true -> starts_run (run ++ t) = true.
Proof.
  destruct run as [|c run]; [congruence|]. simpl.
  intros _ Hc. apply andb_true_iff in Hc as [Hc _]. exact Hc.
Qed.

Lemma starts_run_rendered (ps : list piece) :
  host_hits ps ->
  starts_run (flat_map (render v) ps) = starts_run (originals ps).
Proof.
  intros Hh. destruct Hh as [|p ps Hp _]; [reflexivity|].
  destruct p as [c|m]; [reflexivity|]. destruct Hp as [Hne Hm].
  unfold originals. cbn [flat_map render original].
  rewrite !starts_run_app by assumption. reflexivity.
Qed.

Lemma machine_rendered (ps : list piece) :
  host_hits ps ->
  forall st,
    host_machine d st (flat_map (render v) ps)
    = host_machine d st (originals ps).
Proof.
  induction 1 as [|p ps Hp Hps IH]; intros st; [reflexivity|].
  destruct p as [c|m].
  - unfold originals in *. cbn [flat_map render original app host_machine].
    rewrite (starts_run_rendered ps Hps). unfold originals.
    rewrite !IH. reflexivity.
  - destruct Hp as [Hne Hm].
    unfold originals in *. cbn [flat_map render original].
    destruct st.
    + rewrite !machine_run_start by assumption. rewrite IH. reflexivity.
    + rewrite !machine_run by assumption. apply IH.
Qed.
End Substituted.

Section Dead.
Context {G : Type} `{Faker G}.

(** X22: the address the provider gives never reaches the output.  When
    it is a non-empty text of digits and dots (or of any letters, digits,
    dots and hyphens), the obfuscated line is the line the hostname
    substitution gives on the line as it was read: the address
    substitution before it has no effect but the call to the provider. *)
Theorem X22_address_substitution_has_no_effect (header : text) (fake : G) :
  let ip := fst (fake_ipv4 fake) in
  let domain := fst (fake_domain_name (snd (fake_ipv4 fake))) in
  ip <> [] -> forallb is_host_char ip = true ->
  obfuscate header fake
  = (re_sub hostname_pattern domain header,
     snd (fake_domain_name (snd (fake_ipv4 fake)))).
Proof.
  intros ip domain Hne Hhost. unfold obfuscate.
  rewrite ipv4_pass_unfold. cbn [fst snd]. rewrite hostname_pass_unfold.
  cbn [fst snd]. fold ip. fold domain. f_equal.
  change (flat_map (render domain)
            (finditer hostname_pattern
               (flat_map (render ip) (finditer ip_address_pattern header))))
    with (re_sub hostname_pattern domain
            (flat_map (render ip) (finditer ip_address_pattern header))).
  rewrite !re_sub_host_machine.
  rewrite (machine_rendered domain ip Hne Hhost _ (ip_hits_host header)).
  rewrite finditer_originals. reflexivity.
Qed.
End Dead.

(** * The further properties on concrete messages *)

(** X1, witness. *)
Lemma X1_x_mailer_kept_or_dropped_witness :
  has_field (str "X-Mailer") (str "x-mailer: Mutt 1.0") = true
  /\ rewrite_headers true false
       ([str "Subject: s"] ++ str "x-mailer: Mutt 1.0" :: [str "To: a"]) 0
     = ([str "Subject: s"; str "x-mailer: Mutt 1.0";
         str "To: Jane Doe <jane@example.org>"], 2).
Proof.
  assert (Hx : has_field (str "X-Mailer") (str "x-mailer: Mutt 1.0") = true)
    by reflexivity.
  split; [exact Hx|].
  exact (X1_x_mailer_kept_or_dropped true false [str "Subject: s"]
           [str "To: a"] (str "x-mailer: Mutt 1.0") 0 Hx).
Defined.

(** X2, witness. *)
Lemma X2_replaced_header_ignores_value_witness :
  In (str "From") replaced_names
  /\ rewrite_header false false (str "From: a@b.example") 0
     = rewrite_header false false (str "FROM: Carol <c@d.example>") 0.
Proof.
  assert (Hk : In (str "From") replaced_names)
    by (right; right; left; reflexivity).
  split; [exact Hk|].
  exact (X2_replaced_header_ignores_value false false
           (str "From: a@b.example") (str "FROM: Carol <c@d.example>")
           (str "From") (str "FROM") (str "From") 0
           Hk eq_refl eq_refl eq_refl eq_refl).
Defined.

(** X3, witness. *)
Lemma X3_message_id_line_witness :
  field_name (str "message-id: <1@real.example>") = Some (str "message-id")
  /\ rewrite_header false false (str "message-id: <1@real.example>") 0
     = (Some (str "Message-ID: <123e4567-e89b-42d3-a456-426614174000@example.org>"),
        2).
Proof.
  split; [reflexivity|].
  exact (X3_message_id_line false false (str "message-id: <1@real.example>")
           (str "message-id") 0 eq_refl eq_refl).
Defined.

(** X4, witness. *)
Lemma X4_date_line_witness :
  field_name (str "DATE: Mon, 1 Jan 2024") = Some (str "DATE")
  /\ rewrite_header false false (str "DATE: Mon, 1 Jan 2024") 0
     = (Some (str "Date: 2001-02-03 04:05:06"), 1).
Proof.
  split; [reflexivity|].
  exact (X4_date_line false false (str "DATE: Mon, 1 Jan 2024") (str "DATE")
           0 eq_refl eq_refl).
Defined.

(** X8, witness. *)
Lemma X8_obfuscated_received_begins_with_domain_witness :
  startswith (str "received:") (lower (str "RECEIVED: from x")) = true
  /\ exists rest,
       fst (rewrite_header false true (str "RECEIVED: from x") 0)
       = Some (str "example.org" ++ colon :: rest)
       /\ (head (str "example.org") <> Some "R"%char ->
           startswith (str "Received:") (str "example.org" ++ colon :: rest)
           = false).
Proof.
  split; [reflexivity|].
  exact (X8_obfuscated_received_begins_with_domain false
           (str "RECEIVED: from x") 0 eq_refl).
Defined.

(** X10, witness. *)
Lemma X10_output_has_separator_witness :
  find_header_end_marker demo_message = Some [LF; LF]
  /\ anonymize_content false false [LF; LF] demo_message 0
     = Some (str "Subject: hi" ++ [LF]
             ++ str "From: Jane Doe <jane@example.org>" ++ [LF; LF]
             ++ str "body")
  /\ is_Some (find_header_end_marker
                (str "Subject: hi" ++ [LF]
                 ++ str "From: Jane Doe <jane@example.org>" ++ [LF; LF]
                 ++ str "body")).
Proof.
  split; [reflexivity|]. split; [reflexivity|].
  exact (X10_output_has_separator false false demo_message [LF; LF] _ 0
           eq_refl eq_refl).
Defined.

(** X12, witness. *)
Lemma X12_empty_header_block_witness :
  find_header_end_marker ([LF; LF] ++ str "From: not a header") = Some [LF; LF]
  /\ startswith [LF; LF] ([LF; LF] ++ str "From: not a header") = true
  /\ anonymize_content false true [LF; LF]
       ([LF; LF] ++ str "From: not a header") 0
     = Some ([LF; LF] ++ str "From: not a header").
Proof.
  split; [reflexivity|]. split; [reflexivity|].
  exact (X12_empty_header_block false true
           ([LF; LF] ++ str "From: not a header") [LF; LF] 0 eq_refl eq_refl).
Defined.

(** X13, witness. *)
Lemma X13_message_of_lines_witness :
  let lines := [str "Subject: hi"; str "From: a@b.example"] in
  Forall (fun l => l <> [] /\ no_linebreak l = true) lines
  /\ find_header_end_marker (join [LF] lines ++ [LF; LF] ++ str "body")
     = Some [LF; LF]
  /\ anonymize_content false false [LF; LF]
       (join [LF] lines ++ [LF; LF] ++ str "body") 0
     = Some (join [LF] (fst (rewrite_headers false false lines 0))
             ++ [LF; LF] ++ str "body").
Proof.
  intros lines.
  assert (Hl : Forall (fun l => l <> [] /\ no_linebreak l = true) lines).
  { repeat constructor; discriminate. }
  split; [exact Hl|].
  exact (X13_message_of_lines false false lines (str "body") 0 Hl).
Defined.

(** X14, witness: the input file after a successful run. *)
Lemma X14_only_the_output_file_changes_witness :
  "mail.eml"%string <> output_file demo_args
  /\ files (snd (main demo_args 0 (demo_world demo_message)))
       !! "mail.eml"%string
     = files (demo_world demo_message) !! "mail.eml"%string.
Proof.
  assert (Hne : "mail.eml"%string <> output_file demo_args)
    by (intros E; discriminate E).
  split; [exact Hne|].
  exact (X14_only_the_output_file_changes demo_args 0
           (demo_world demo_message) "mail.eml" Hne).
Defined.

Lemma demo_run_hypotheses :
  files (demo_world demo_message) !! input_file demo_args
  = Some (map byte_of_ascii demo_message)
  /\ decode (default "utf-8"%string (detect (map byte_of_ascii demo_message)))
       (map byte_of_ascii demo_message) = Some demo_message
  /\ find_header_end_marker demo_message = Some [LF; LF].
Proof.
  split; [apply demo_world_file|]. split; [|reflexivity].
  simpl. f_equal.
Qed.

(** X16, witness. *)
Lemma X16_successful_run_witness :
  let out := str "Subject: hi" ++ [LF]
             ++ str "From: Jane Doe <jane@example.org>" ++ [LF; LF]
             ++ str "body" in
  anonymize_content false false [LF; LF] demo_message 0 = Some out
  /\ fst (main demo_args 0 (demo_world demo_message)) = 0
  /\ files (snd (main demo_args 0 (demo_world demo_message)))
     = <[output_file demo_args := map byte_of_ascii out]>
         (files (demo_world demo_message))
  /\ logged (snd (main demo_args 0 (demo_world demo_message)))
     = logged (demo_world demo_message) ++ [Saved (output_file demo_args)].
Proof.
  intros out. destruct demo_run_hypotheses as (Hf & Hd & Hm).
  assert (Ho : anonymize_content false false [LF; LF] demo_message 0
               = Some out) by reflexivity.
  split; [exact Ho|].
  exact (X16_successful_run demo_args 0 (demo_world demo_message)
           (map byte_of_ascii demo_message) demo_message [LF; LF] out
           (map byte_of_ascii out) Hf Hd Hm Ho eq_refl).
Defined.

(** X17, witness: an ASCII file and a provider with an accented name. *)
Lemma X17_encoding_failure_empties_output_witness :
  let out := str "Subject: hi" ++ [LF] ++ str "From: Zo" ++ [ascii_of_N 235]
             ++ str " <zoe@example.org>" ++ [LF; LF] ++ str "body" in
  anonymize_content false false [LF; LF] demo_message tt = Some out
  /\ @encode ascii_codec "ascii" out = None
  /\ fst (@main unit accented_faker ascii_codec demo_args tt
            (demo_world demo_message)) = 0
  /\ files (snd (@main unit accented_faker ascii_codec demo_args tt
                   (demo_world demo_message)))
     = <[output_file demo_args := []]> (files (demo_world demo_message))
  /\ logged (snd (@main unit accented_faker ascii_codec demo_args tt
                    (demo_world demo_message)))
     = logged (demo_world demo_message) ++ [ErrorOccurred].
Proof.
  intros out.
  assert (Ho : anonymize_content false false [LF; LF] demo_message tt
               = Some out) by reflexivity.
  assert (He : @encode ascii_codec "ascii" out = None) by reflexivity.
  split; [exact Ho|]. split; [exact He|].
  apply (@X17_encoding_failure_empties_output unit accented_faker ascii_codec
           demo_args tt (demo_world demo_message)
           (map byte_of_ascii demo_message) demo_message [LF; LF] out).
  - apply demo_world_file.
  - vm_compute. reflexivity.
  - reflexivity.
  - exact Ho.
  - exact He.
Defined.

Lemma demo_run_writes :
  files (snd (main demo_args 0 (demo_world demo_message)))
  <> files (demo_world demo_message).
Proof.
  destruct demo_run_hypotheses as (Hf & Hd & Hm).
  destruct (anonymize_content_found false false demo_message [LF; LF] 0 Hm)
    as [out Ho].
  rewrite (main_saved demo_args 0 (demo_world demo_message) _ _ _ out
             (map byte_of_ascii out) Hf Hd Hm Ho eq_refl).
  cbn. intros E.
  apply (f_equal (fun m => m !! "anonymous.eml"%string)) in E.
  rewrite lookup_insert_eq in E.
  rewrite lookup_singleton_ne in E by (intros X; discriminate X).
  discriminate E.
Qed.

(** X18, witness. *)
Lemma X18_no_write_without_separator_witness :
  files (snd (main demo_args 0 (demo_world demo_message)))
  <> files (demo_world demo_message)
  /\ exists raw content marker,
       files (demo_world demo_message) !! input_file demo_args = Some raw
       /\ decode (default "utf-8"%string (detect raw)) raw = Some content
       /\ find_header_end_marker content = Some marker.
Proof.
  split; [exact demo_run_writes|].
  exact (X18_no_write_without_separator demo_args 0 (demo_world demo_message)
           demo_run_writes).
Defined.

Lemma no_digit_no_literal (s : text) :
  forallb (fun c => negb (is_digit c)) s = true ->
  forall pre m post,
    s = pre ++ m ++ post -> ipv4_literal m -> ~ word_bounded pre post.
Proof.
  intros Hs pre m post -> Hlit _.
  apply ipv4_literal_first in Hlit as (c & t & -> & Hc).
  rewrite !forallb_app in Hs. simpl in Hs. rewrite Hc in Hs.
  simpl in Hs. rewrite andb_false_r in Hs. discriminate.
Qed.

(** X19, witness: a line without a digit. *)
Lemma X19_no_address_no_change_witness :
  (forall pre m post,
     str "from mail.example.com by relay" = pre ++ m ++ post ->
     ipv4_literal m -> ~ word_bounded pre post)
  /\ re_sub ip_address_pattern (str "203.0.113.0")
       (str "from mail.example.com by relay")
     = str "from mail.example.com by relay".
Proof.
  assert (Hno : forall pre m post,
             str "from mail.example.com by relay" = pre ++ m ++ post ->
             ipv4_literal m -> ~ word_bounded pre post)
    by (apply no_digit_no_literal; reflexivity).
  split; [exact Hno|].
  exact (X19_no_address_no_change (str "203.0.113.0") _ Hno).
Defined.

(** X20, witness. *)
Lemma X20_no_host_char_no_change_witness :
  forallb (fun c => negb (is_host_char c)) (str "(): <[]> ;") = true
  /\ re_sub hostname_pattern (str "example.org") (str "(): <[]> ;")
     = str "(): <[]> ;".
Proof.
  split; [reflexivity|].
  exact (X20_no_host_char_no_change (str "example.org") (str "(): <[]> ;")
           eq_refl).
Defined.

(** X22, witness: the line of the specification's example. *)
Lemma X22_address_substitution_has_no_effect_witness :
  fst (fake_ipv4 0) <> []
  /\ forallb is_host_char (fst (fake_ipv4 0)) = true
  /\ obfuscate example_received 0
     = (re_sub hostname_pattern (str "example.org") example_received, 2).
Proof.
  assert (Hne : fst (fake_ipv4 0) <> []) by (simpl; discriminate).
  assert (Hh : forallb is_host_char (fst (fake_ipv4 0)) = true)
    by reflexivity.
  split; [exact Hne|]. split; [exact Hh|].
  exact (X22_address_substitution_has_no_effect example_received 0 Hne Hh).
Defined.

(** ** One provider call for each pass of a Received line (C10) *)

Section Claims_calls.
Context {G : Type} `{Faker G}.

(** The provider that records its calls gives the line of the provider it
    wraps, and records an address call and then a domain name call. *)
Lemma obfuscate_traced (header : text) (g : G) (calls : list call) :
  obfuscate header (g, calls)
  = (fst (obfuscate header g),
     (snd (obfuscate header g), calls ++ [CallIpv4; CallDomainName])).
Proof.
  unfold obfuscate, ipv4_pass, hostname_pass. simpl. unfold recorded. simpl.
  destruct (fake_ipv4 g) as [v ga]. simpl.
  destruct (fake_domain_name ga) as [d gb]. simpl.
  rewrite <- app_assoc. reflexivity.
Qed.

Lemma obfuscate_values (header : text) (g : G) :
  obfuscate header g
  = (re_sub hostname_pattern (fst (fake_domain_name (snd (fake_ipv4 g))))
       (fst (ipv4_pass header g)),
     snd (fake_domain_name (snd (fake_ipv4 g)))).
Proof.
  unfold obfuscate, ipv4_pass, hostname_pass.
  destruct (fake_ipv4 g) as [v ga]. simpl.
  destruct (fake_domain_name ga) as [d gb]. reflexivity.
Qed.

(** C10: obfuscating one Received line calls the provider for an address
    once and for a domain name once, in this order, and for nothing else.
    The line after the first pass is the line with the one address in the
    place of every match of the address pattern and every other character
    where it was; the matches are the texts of the strict IPv4 grammar with
    no word character next to them, and every such text of the line is a
    match or begins inside one.  The output line is the line after the
    first pass with the one domain name in the place of every match of the
    hostname pattern: each of those is a run of letters, digits, dots and
    hyphens with its brackets, no character of such a run is left outside a
    match, and so the output is what one pass from left to right gives that
    puts the domain name once for every such run. *)
Theorem C10_one_call_per_pass (kx : bool) (header : text) (g : G)
  (calls : list call) :
  let ip := fst (fake_ipv4 g) in
  let g1 := snd (fake_ipv4 g) in
  let domain := fst (fake_domain_name g1) in
  let g2 := snd (fake_domain_name g1) in
  let pieces1 := finditer ip_address_pattern header in
  let line1 := fst (ipv4_pass header g) in
  let pieces2 := finditer hostname_pattern line1 in
  let line2 := fst (obfuscate header g) in
  obfuscate header (g, calls)
  = (line2, (g2, calls ++ [CallIpv4; CallDomainName]))
  /\ (startswith (str "received:") (lower header) = true ->
      rewrite_header kx true header (g, calls)
      = (Some line2, (g2, calls ++ [CallIpv4; CallDomainName])))
  /\ Substituted ip pieces1 line1
  /\ Substituted domain pieces2 line2
  /\ originals pieces1 = header /\ originals pieces2 = line1
  /\ (forall before m after,
        pieces1 = before ++ Hit m :: after ->
        ipv4_literal m
        /\ word_bounded (originals before) (originals after))
  /\ (forall pre m post,
        header = pre ++ m ++ post ->
        ipv4_literal m -> word_bounded pre post ->
        covered pieces1 (length pre))
  /\ (forall before m after,
        pieces2 = before ++ Hit m :: after -> host_token m)
  /\ (forall before c after,
        pieces2 = before ++ Keep c :: after -> is_host_char c = false)
  /\ line2 = host_machine domain Outside line1.
Proof.
  intros ip g1 domain g2 pieces1 line1 pieces2 line2.
  assert (E2 : obfuscate header g
               = (re_sub hostname_pattern domain line1, g2))
    by apply obfuscate_values.
  assert (E : obfuscate header (g, calls)
              = (line2, (g2, calls ++ [CallIpv4; CallDomainName]))).
  { rewrite obfuscate_traced. subst line2. rewrite E2. reflexivity. }
  split; [exact E|]. split.
  { intros Hr. unfold rewrite_header. rewrite Hr, E. reflexivity. }
  split; [apply ipv4_pass_Substituted|].
  split.
  { subst line2. rewrite E2. simpl. apply Substituted_re_sub. }
  split; [apply finditer_originals|].
  split; [apply finditer_originals|].
  split; [intros before m after; apply ip_hits_are_literals|].
  split.
  { intros pre m post Heq Hlit [Hb Ha].
    apply (ip_occurrences_covered None header pieces1
             (finditer_Scanned _ _) pre m post Heq Hlit); [|exact Ha].
    rewrite last_of_None. exact Hb. }
  split; [intros before m after; apply host_hits_are_tokens|].
  split; [intros before c after; apply host_keeps_no_host_char|].
  subst line2. rewrite E2. simpl. apply re_sub_host_machine.
Qed.
End Claims_calls.

(** C10, witness: a Received line with two addresses, and the provider
    whose addresses differ from call to call. *)
Lemma C10_one_call_per_pass_witness :
  let header := str "Received: from a (192.168.1.10) by [10.0.0.5]" in
  let line1 := str "Received: from a (203.0.113.0) by [203.0.113.0]" in
  let line2 := str "example.org: example.org example.org (example.org) example.org example.org" in
  startswith (str "received:") (lower header) = true
  /\ rewrite_header false true header (0, [])
     = (Some line2, (2, [CallIpv4; CallDomainName]))
  /\ Substituted (str "203.0.113.0") (finditer ip_address_pattern header)
       line1
  /\ Substituted (str "example.org") (finditer hostname_pattern line1) line2
  /\ ipv4_literal (str "10.0.0.5")
  /\ covered (finditer ip_address_pattern header)
       (length (str "Received: from a (192.168.1.10) by ["))
  /\ line2 = host_machine (str "example.org") Outside line1.
Proof.
  intros header line1 line2.
  assert (Hr : startswith (str "received:") (lower header) = true)
    by reflexivity.
  assert (Hlit : ipv4_literal (str "10.0.0.5")).
  { exists (str "10"), (str "0"), (str "0"), (str "5").
    repeat split; reflexivity. }
  destruct (C10_one_call_per_pass false header 0 [])
    as (_ & Hrw & S1 & S2 & _ & _ & _ & Hcov & _ & _ & Hm).
  split; [exact Hr|]. split; [exact (Hrw Hr)|].
  split; [exact S1|]. split; [exact S2|]. split; [exact Hlit|].
  split; [|exact Hm].
  apply (Hcov (str "Received: from a (192.168.1.10) by [") (str "10.0.0.5")
           (str "]")); [reflexivity|exact Hlit|split; reflexivity].
Defined.
